(** * Digital library: similarity scorer, entitlement engine, request queue

    A shallow embedding of the core logic of the digital-library server:

    - [calculateSimilarity] (admin routes): the bigram score used to flag
      near-duplicate titles at upload;
    - [resetPeriodIfNeeded], [getPlanLimits], [ensureActiveAndWithinLimits]
      (book routes): the subscription gate in front of read and download;
    - the subscription-request handlers [subscribe_request] (user routes) and
      [approve] (admin routes);
    - the other subscription handlers of the admin routes
      ([grant_subscription], [cancel_subscription], [bulk_subscription],
      [mark_processed], [list_requests]) and the hourly [expire_job];
    - the duplicate check of the upload handler ([duplicates]);
    - [ensureActiveSubscription] and the reading-list and favorites
      handlers.

    Conventions.  A JavaScript string is the list of its UTF-16 code units.
    A [Date] is its number of milliseconds since the epoch (an integer), and
    an optional Date field of a Mongoose document is an [option].  Each
    [new Date()] of the source is a separate clock reading, passed as an
    argument.  A Mongoose collection looked up by [_id] is a [gmap]; the
    request collection, which is also searched by a query, is the list of
    its documents in storage order.  The score is a quotient of two small
    integers; it is kept as an exact rational. *)

From Stdlib Require Import QArith.
From stdpp Require Import base numbers list strings gmap gmultiset.

(** ** Similarity scorer *)

Module Similarity.

Local Open Scope Z_scope.

(** UTF-16 code unit. *)
Definition code_unit := N.

(** A JavaScript string. *)
Definition jsstring := list code_unit.

(** A string literal: one code unit per character. *)
Definition lit (s : string) : jsstring :=
  Ascii.N_of_ascii <$> String.list_ascii_of_string s.

(** [s.substring(i, j)] for [0 <= i <= j]. *)
Definition substring (i j : nat) (s : jsstring) : jsstring :=
  take (j - i) (drop i s).

(** The first two loops: [for (i = 0; i < s.length - 1; i++)
    pairs.push(s.substring(i, i + 2))]. *)
Definition pairs_of (s : jsstring) : list jsstring :=
  (λ i, substring i (i + 2) s) <$> seq 0 (length s - 1).

(** The inner loop over [j]: look for the first [pairs2[j]] equal to [p];
    when found, [pairs2.splice(j, 1)] removes it in place and the loop
    breaks.  [None]: no entry matched, [pairs2] is as it was. *)
Fixpoint splice_first (p : jsstring) (pairs2 : list jsstring)
  : option (list jsstring) :=
  match pairs2 with
  | [] => None
  | q :: rest =>
      if decide (p = q) then Some rest
      else cons q <$> splice_first p rest
  end.

(** The outer loop over [i], threading the counter [intersection] and the
    array [pairs2], which the inner loop shrinks. *)
Fixpoint intersect (pairs1 pairs2 : list jsstring) (intersection : nat)
  : nat * list jsstring :=
  match pairs1 with
  | [] => (intersection, pairs2)
  | p :: rest =>
      match splice_first p pairs2 with
      | Some pairs2' => intersect rest pairs2' (S intersection)
      | None => intersect rest pairs2 intersection
      end
  end.

(** [calculateSimilarity(str1, str2)].  The last line reads
    [pairs2.length] after the loop has spliced the matched entries out. *)
Definition calculateSimilarity (str1 str2 : jsstring) : Q :=
  if decide (str1 = str2) then 1%Q
  else if decide (length str1 < 2 ∨ length str2 < 2)%nat then 0%Q
  else
    let pairs1 := pairs_of str1 in
    let '(intersection, pairs2) := intersect pairs1 (pairs_of str2) 0 in
    (inject_Z (2 * Z.of_nat intersection)
     / inject_Z (Z.of_nat (length pairs1) + Z.of_nat (length pairs2)))%Q.

(** The formula of the specification: the Dice coefficient over the two
    bigram sequences as they are before the matching starts. *)
Definition dice (str1 str2 : jsstring) : Q :=
  let pairs1 := pairs_of str1 in
  let pairs2 := pairs_of str2 in
  (inject_Z (2 * Z.of_nat (intersect pairs1 pairs2 0).1)
   / inject_Z (Z.of_nat (length pairs1) + Z.of_nat (length pairs2)))%Q.

(** The bag of entries of a bigram array. *)
Definition bag (l : list jsstring) : gmultiset jsstring := list_to_set_disj l.

End Similarity.

(** ** Entitlement engine (book routes) *)

Module Entitlement.

Local Open Scope Z_scope.

(** A MongoDB [ObjectId]: a 96-bit value; [a.equals(b)] is equality. *)
Definition ObjectId := N.

(** A [Date], as [getTime()]: milliseconds since the epoch. *)
Definition Date := Z.

(** [enum: ['none', 'basic', 'premium']]. *)
Inductive Plan := plan_none | basic | premium.

(** [enum: ['none', 'active', 'expired']]. *)
Inductive Status := status_none | active | expired.

#[global] Instance Plan_eq_dec : EqDecision Plan.
Proof. solve_decision. Defined.

#[global] Instance Status_eq_dec : EqDecision Status.
Proof. solve_decision. Defined.

(** The subscription fields of the user schema.  The remaining fields
    (name, email, reading list, ...) are never touched by the functions
    below. *)
Record User := mkUser {
  subscription_plan : Plan;
  subscription_status : Status;
  subscription_start : option Date;
  subscription_end : option Date;
  period_started_at : option Date;
  read_books_in_period : list ObjectId;
  downloaded_books_in_period : list ObjectId
}.

(** The user collection, by [_id]. *)
Abbreviation Users := (gmap ObjectId User).

(** [30 * 24 * 60 * 60 * 1000] *)
Definition thirty_days : Z := 30 * 24 * 60 * 60 * 1000.

(** [a || b] on two optional dates: a Date object is truthy, a missing
    field is not. *)
Definition or_else (a b : option Date) : option Date :=
  match a with
  | Some _ => a
  | None => b
  end.

(** The test of [resetPeriodIfNeeded]:
    [!start || (now - start) > 30 * 24 * 60 * 60 * 1000]. *)
Definition period_over (start : option Date) (now : Date) : bool :=
  match start with
  | None => true
  | Some s => bool_decide (now - s > thirty_days)
  end.

(** [resetPeriodIfNeeded(user)], with [now] the reading of [new Date()].
    The in-place mutation of [user] is the returned document. *)
Definition resetPeriodIfNeeded (now : Date) (user : User) : User :=
  let start := or_else (period_started_at user) (subscription_start user) in
  if period_over start now then
    {| subscription_plan := subscription_plan user;
       subscription_status := subscription_status user;
       subscription_start := subscription_start user;
       subscription_end := subscription_end user;
       period_started_at := Some now;
       read_books_in_period := [];
       downloaded_books_in_period := [] |}
  else user.

Record Limits := mkLimits { maxReads : nat; maxDownloads : nat }.

Definition getPlanLimits (plan : Plan) : Limits :=
  match plan with
  | premium => {| maxReads := 100; maxDownloads := 25 |}
  | basic => {| maxReads := 10; maxDownloads := 5 |}
  | plan_none => {| maxReads := 0; maxDownloads := 0 |}
  end.

(** The result object [{ ok, message }]. *)
Inductive Gate :=
  | Ok
  | Refused (message : string).

Definition UserNotFound : Gate := Refused "User not found".
Definition SubscriptionInactive : Gate :=
  Refused "Subscription inactive or expired. Please contact admin to renew.".
Definition NoActivePlan : Gate := Refused "No active plan. Please subscribe.".
Definition ReadLimit : Gate := Refused "Read limit reached for this period.".
Definition DownloadLimit : Gate :=
  Refused "Download limit reached for this period.".

(** [arr.some(id => id.equals(bookId))] *)
Definition some_equals (bookId : ObjectId) (arr : list ObjectId) : bool :=
  existsb (λ id, bool_decide (id = bookId)) arr.

(** [user.read_books_in_period.push(bookId)] *)
Definition push_read (bookId : ObjectId) (user : User) : User :=
  {| subscription_plan := subscription_plan user;
     subscription_status := subscription_status user;
     subscription_start := subscription_start user;
     subscription_end := subscription_end user;
     period_started_at := period_started_at user;
     read_books_in_period := read_books_in_period user ++ [bookId];
     downloaded_books_in_period := downloaded_books_in_period user |}.

(** [user.downloaded_books_in_period.push(bookId)] *)
Definition push_downloaded (bookId : ObjectId) (user : User) : User :=
  {| subscription_plan := subscription_plan user;
     subscription_status := subscription_status user;
     subscription_start := subscription_start user;
     subscription_end := subscription_end user;
     period_started_at := period_started_at user;
     read_books_in_period := read_books_in_period user;
     downloaded_books_in_period := downloaded_books_in_period user ++ [bookId] |}.

(** The first test of the gate: [user.subscription_status !== 'active' ||
    !user.subscription_end || user.subscription_end < new Date()]. *)
Definition inactive (now : Date) (user : User) : bool :=
  bool_decide (subscription_status user ≠ active)
  || match subscription_end user with
     | None => true
     | Some e => bool_decide (e < now)
     end.

(** [ensureActiveAndWithinLimits(userId, bookId, type)] over the user
    collection.  [now] is the clock reading of the expiry test, [now']
    the later one inside [resetPeriodIfNeeded].  [User.findById] is the
    lookup, [user.save()] the insertion of the mutated document; every
    early return leaves the collection as it was found. *)
Definition ensureActiveAndWithinLimits (now now' : Date)
    (userId bookId : ObjectId) (type : string) (users : Users)
  : Gate * Users :=
  match users !! userId with
  | None => (UserNotFound, users)
  | Some user =>
      if inactive now user then (SubscriptionInactive, users)
      else
        let user := resetPeriodIfNeeded now' user in
        let limits := getPlanLimits (subscription_plan user) in
        if bool_decide (maxReads limits = 0%nat)
           && bool_decide (maxDownloads limits = 0%nat)
        then (NoActivePlan, users)
        else if bool_decide (type = "read") then
          let already := some_equals bookId (read_books_in_period user) in
          if negb already
             && bool_decide (maxReads limits ≤ length (read_books_in_period user))%nat
          then (ReadLimit, users)
          else
            let user := if negb already then push_read bookId user else user in
            (Ok, <[userId := user]> users)
        else if bool_decide (type = "download") then
          let already :=
            some_equals bookId (downloaded_books_in_period user) in
          if negb already
             && bool_decide (maxDownloads limits
                             ≤ length (downloaded_books_in_period user))%nat
          then (DownloadLimit, users)
          else
            let user :=
              if negb already then push_downloaded bookId user else user in
            (Ok, <[userId := user]> users)
        else (Ok, <[userId := user]> users)
  end.

(** Consecutive download requests of one user, each with its own two clock
    readings; the collection left by one call is the one the next call
    finds. *)
Fixpoint downloads (userId : ObjectId)
    (calls : list (ObjectId * (Date * Date))) (users : Users)
  : list Gate * Users :=
  match calls with
  | [] => ([], users)
  | (bookId, (now, now')) :: rest =>
      let '(g, users1) :=
        ensureActiveAndWithinLimits now now' userId bookId "download" users in
      let '(gs, users2) := downloads userId rest users1 in
      (g :: gs, users2)
  end.

(** The document a reset leaves: the usage arrays emptied and the period
    anchored at [now]; the subscription fields stay. *)
Definition cleared (now : Date) (user : User) : User :=
  {| subscription_plan := subscription_plan user;
     subscription_status := subscription_status user;
     subscription_start := subscription_start user;
     subscription_end := subscription_end user;
     period_started_at := Some now;
     read_books_in_period := [];
     downloaded_books_in_period := [] |}.

(** The date the period is measured from: [period_started_at], and
    [subscription_start] when that field is missing. *)
Definition anchor (user : User) : option Date :=
  or_else (period_started_at user) (subscription_start user).

(** The reset is due: no anchor, or an anchor more than 30 days back. *)
Definition due (now : Date) (user : User) : Prop :=
  anchor user = None ∨ ∃ s, anchor user = Some s ∧ now - s > thirty_days.

(** The user with the download array replaced by [ids]. *)
Definition with_downloaded (ids : list ObjectId) (user : User) : User :=
  {| subscription_plan := subscription_plan user;
     subscription_status := subscription_status user;
     subscription_start := subscription_start user;
     subscription_end := subscription_end user;
     period_started_at := period_started_at user;
     read_books_in_period := read_books_in_period user;
     downloaded_books_in_period := ids |}.

(** An active basic subscriber whose subscription ends at [e] and whose
    usage period is anchored at [s]. *)
Definition basic_subscriber (e s : Date) (user : User) : Prop :=
  subscription_status user = active ∧ subscription_plan user = basic ∧
  subscription_end user = Some e ∧ anchor user = Some s.

(** The two clock readings [t] of one call fall before the end [e] of the
    subscription and within 30 days of the anchor [s] of the period. *)
Definition in_force (e s : Date) (t : Date * Date) : Prop :=
  t.1 ≤ e ∧ t.2 - s ≤ thirty_days.

End Entitlement.

(** ** Subscription requests (user and admin routes) *)

Module Requests.

Import Entitlement.

Local Open Scope Z_scope.

(** [enum: ['pending', 'processed']], default [pending]. *)
Inductive ReqStatus := pending | processed.

#[global] Instance ReqStatus_eq_dec : EqDecision ReqStatus.
Proof. solve_decision. Defined.

(** A document of the subscription-request collection.  The schema
    restricts [plan] to basic and premium. *)
Record SubscriptionRequest := mkRequest {
  _id : ObjectId;
  user : ObjectId;
  plan : Plan;
  status : ReqStatus;
  processed_at : option Date;
  note : string
}.

(** The request collection, in storage order. *)
Abbreviation Requests := (list SubscriptionRequest).

(** [Joi.string().valid('basic','premium').required()] *)
Definition valid_plan (s : string) : option Plan :=
  if bool_decide (s = "basic") then Some basic
  else if bool_decide (s = "premium") then Some premium
  else None.

(** The filter [{ user: userId, plan: value.plan, status: 'pending' }]. *)
Definition pending_for (userId : ObjectId) (p : Plan)
    (r : SubscriptionRequest) : bool :=
  bool_decide (user r = userId) && bool_decide (plan r = p)
  && bool_decide (status r = pending).

(** [SubscriptionRequest.findOne(filter)]: the first match. *)
Definition findOne (f : SubscriptionRequest → bool) (reqs : Requests)
  : option SubscriptionRequest :=
  List.find f reqs.

(** [SubscriptionRequest.findById(id)] *)
Definition findById (id : ObjectId) (reqs : Requests)
  : option SubscriptionRequest :=
  List.find (λ r, bool_decide (_id r = id)) reqs.

(** [doc.save()]: the stored document with that [_id] is replaced. *)
Definition save (doc : SubscriptionRequest) (reqs : Requests) : Requests :=
  (λ r, if bool_decide (_id r = _id doc) then doc else r) <$> reqs.

(** White space and line terminators, as [String.prototype.trim] sees
    them, among the characters of a [string] (one code unit per
    character): tab, line feed, vertical tab, form feed, carriage return,
    space and no-break space. *)
Definition is_space (c : Ascii.ascii) : bool :=
  let n := Ascii.N_of_ascii c in
  bool_decide (n = 9 ∨ n = 10 ∨ n = 11 ∨ n = 12 ∨ n = 13 ∨ n = 32 ∨ n = 160)%N.

(** The characters left once the leading white space is dropped. *)
Fixpoint trim_start (cs : list Ascii.ascii) : list Ascii.ascii :=
  match cs with
  | [] => []
  | c :: rest => if is_space c then trim_start rest else cs
  end.

(** [s.trim()]: the setter that [trim: true] puts on the [note] path of
    the schema. *)
Definition trim (s : string) : string :=
  String.string_of_list_ascii
    (rev (trim_start (rev (trim_start (String.list_ascii_of_string s))))).

(** The JSON replies of the subscribe-request handler. *)
Inductive SubmitReply :=
  | InvalidInput                       (* 400 { error: 'invalid input' } *)
  | AlreadyPending (id : ObjectId)     (* 200 { ok, pending: true, id } *)
  | Created (id : ObjectId).           (* 201 { ok, id } *)

(** [router.post('/subscribe-request')] for the logged-in user [userId];
    [body_plan] and [body_note] are the fields of the request body and
    [new_id] is the [_id] that [create] gives the new document.  The
    handler passes [value.note || ''] to [create], and the schema stores
    it trimmed. *)
Definition subscribe_request (new_id userId : ObjectId)
    (body_plan : string) (body_note : option string) (reqs : Requests)
  : SubmitReply * Requests :=
  match valid_plan body_plan with
  | None => (InvalidInput, reqs)
  | Some p =>
      match findOne (pending_for userId p) reqs with
      | Some exists_ => (AlreadyPending (_id exists_), reqs)
      | None =>
          let doc := {| _id := new_id; user := userId; plan := p;
                        status := pending; processed_at := None;
                        note := trim (default EmptyString body_note) |} in
          (Created new_id, reqs ++ [doc])
      end
  end.

(** The JSON replies of the approve handler. *)
Inductive ApproveReply :=
  | ErrorReply (code : nat) (error : string)
  | OkReply.

Definition NotFound : ApproveReply := ErrorReply 404 "not found".
Definition AlreadyProcessed : ApproveReply :=
  ErrorReply 400 "already processed".
Definition UserMissing : ApproveReply := ErrorReply 404 "user not found".

(** [router.post('/requests/:id/approve')] over both collections.  [now]
    is the reading used for the grant, [now'] the later one stored in
    [processed_at]. *)
Definition approve (now now' : Date) (id : ObjectId)
    (db : Users * Requests) : ApproveReply * (Users * Requests) :=
  let '(users, reqs) := db in
  match findById id reqs with
  | None => (NotFound, db)
  | Some reqDoc =>
      if bool_decide (status reqDoc = processed) then (AlreadyProcessed, db)
      else
        match users !! user reqDoc with
        | None => (UserMissing, db)
        | Some _ =>
            let end_ := now + thirty_days in
            let granted :=
              {| subscription_plan := plan reqDoc;
                 subscription_status := active;
                 subscription_start := Some now;
                 subscription_end := Some end_;
                 period_started_at := Some now;
                 read_books_in_period := [];
                 downloaded_books_in_period := [] |} in
            let reqDoc' :=
              {| _id := _id reqDoc; user := user reqDoc; plan := plan reqDoc;
                 status := processed; processed_at := Some now';
                 note := note reqDoc |} in
            (OkReply, (<[user reqDoc := granted]> users, save reqDoc' reqs))
        end
  end.

(** At most one pending request for each user and plan. *)
Definition one_pending (reqs : Requests) : Prop :=
  ∀ userId p, (length (filter (λ r, pending_for userId p r = true) reqs) ≤ 1)%nat.

End Requests.

(** ** The gate, for either action and any plan *)

Module Access.

Import Entitlement.

Local Open Scope Z_scope.

(** The two values of [type] the routes pass. *)
Inductive Action := Read | Download.

(** The string the route passes as [type]. *)
Definition action_name (a : Action) : string :=
  match a with
  | Read => "read"
  | Download => "download"
  end.

(** The usage array the action counts against. *)
Definition usage (a : Action) (user : User) : list ObjectId :=
  match a with
  | Read => read_books_in_period user
  | Download => downloaded_books_in_period user
  end.

(** The limit of the plan for the action. *)
Definition limit (a : Action) (plan : Plan) : nat :=
  match a with
  | Read => maxReads (getPlanLimits plan)
  | Download => maxDownloads (getPlanLimits plan)
  end.

(** The refusal for an exhausted quota. *)
Definition limit_reached (a : Action) : Gate :=
  match a with
  | Read => ReadLimit
  | Download => DownloadLimit
  end.

(** The push onto the usage array of the action. *)
Definition push (a : Action) (bookId : ObjectId) (user : User) : User :=
  match a with
  | Read => push_read bookId user
  | Download => push_downloaded bookId user
  end.

(** The user with the usage array of the action replaced by [ids]. *)
Definition with_usage (a : Action) (ids : list ObjectId) (user : User)
  : User :=
  match a with
  | Read =>
      {| subscription_plan := subscription_plan user;
         subscription_status := subscription_status user;
         subscription_start := subscription_start user;
         subscription_end := subscription_end user;
         period_started_at := period_started_at user;
         read_books_in_period := ids;
         downloaded_books_in_period := downloaded_books_in_period user |}
  | Download => with_downloaded ids user
  end.

(** An active subscriber to [plan] whose subscription ends at [e] and whose
    usage period is anchored at [s]. *)
Definition subscriber (plan : Plan) (e s : Date) (user : User) : Prop :=
  subscription_status user = active ∧ subscription_plan user = plan ∧
  subscription_end user = Some e ∧ anchor user = Some s.

(** Consecutive requests of one user for one action, each with its own two
    clock readings. *)
Fixpoint requests (userId : ObjectId) (type : string)
    (calls : list (ObjectId * (Date * Date))) (users : Users)
  : list Gate * Users :=
  match calls with
  | [] => ([], users)
  | (bookId, (now, now')) :: rest =>
      let '(g, users1) :=
        ensureActiveAndWithinLimits now now' userId bookId type users in
      let '(gs, users2) := requests userId type rest users1 in
      (g :: gs, users2)
  end.

(** Every stored user that is active has usage arrays no longer than the
    limits of the plan. *)
Definition active_within_quota (users : Users) : Prop :=
  ∀ userId user, users !! userId = Some user →
    subscription_status user = active →
    (length (read_books_in_period user)
     ≤ maxReads (getPlanLimits (subscription_plan user)))%nat ∧
    (length (downloaded_books_in_period user)
     ≤ maxDownloads (getPlanLimits (subscription_plan user)))%nat.

(** [ensureActiveSubscription(userId)] of the reading-list routes, with
    [now] the reading of [new Date()]. *)
Definition ensureActiveSubscription (now : Date) (userId : ObjectId)
    (users : Users) : Gate :=
  match users !! userId with
  | None => UserNotFound
  | Some user =>
      if bool_decide (subscription_status user ≠ active)
         || match subscription_end user with
            | None => true
            | Some e => bool_decide (e < now)
            end
      then SubscriptionInactive
      else Ok
  end.

(** What a successful call stores for the user: the loaded document
    [user] after the period reset at [now'], with the book pushed on the
    usage array of the action unless it is there already; for a [type]
    that is neither action, the document after the reset. *)
Definition stored_after (now' : Date) (bookId : ObjectId) (type : string)
    (user user' : User) : Prop :=
  let user1 := resetPeriodIfNeeded now' user in
  (∃ a, type = action_name a ∧
     (((bookId ∈ usage a user1) ∧ user' = user1) ∨
      ((bookId ∉ usage a user1) ∧
       (length (usage a user1) < limit a (subscription_plan user1))%nat ∧
       user' = push a bookId user1))) ∨
  (type ≠ "read" ∧ type ≠ "download" ∧ user' = user1).

End Access.

(** ** Subscription management (admin routes and the hourly job) *)

Module Admin.

Import Entitlement Requests.

Local Open Scope Z_scope.

(** [User.updateMany(filter, { $set: ... })]: every stored document that
    matches the filter is updated once; the others are left alone. *)
Definition updateMany (matches : ObjectId → User → bool) (set : User → User)
    (users : Users) : Users :=
  map_imap (λ id user, Some (if matches id user then set user else user))
    users.

(** The JSON replies of the single grant:
    [{ ok: true, user: { id, plan, end } }] or an error. *)
Inductive GrantReply :=
  | GrantError (code : nat) (error : string)
  | Granted (id : ObjectId) (plan : Plan) (end_ : option Date).

(** [router.post('/users/:id/subscription')]: the direct grant. *)
Definition grant_subscription (now : Date) (id : ObjectId)
    (body_plan : string) (users : Users) : GrantReply * Users :=
  match valid_plan body_plan with
  | None => (GrantError 400 "invalid input", users)
  | Some p =>
      match users !! id with
      | None => (GrantError 404 "user not found", users)
      | Some _ =>
          let end_ := now + thirty_days in
          let user :=
            {| subscription_plan := p;
               subscription_status := active;
               subscription_start := Some now;
               subscription_end := Some end_;
               period_started_at := Some now;
               read_books_in_period := [];
               downloaded_books_in_period := [] |} in
          (Granted id (subscription_plan user) (subscription_end user),
           <[id := user]> users)
      end
  end.

(** [router.post('/users/:id/subscription/cancel')] *)
Definition cancel_subscription (now : Date) (id : ObjectId) (users : Users)
  : ApproveReply * Users :=
  match users !! id with
  | None => (UserMissing, users)
  | Some user =>
      let user :=
        {| subscription_plan := plan_none;
           subscription_status := expired;
           subscription_start := subscription_start user;
           subscription_end := Some now;
           period_started_at := period_started_at user;
           read_books_in_period := read_books_in_period user;
           downloaded_books_in_period := downloaded_books_in_period user |} in
      (OkReply, <[id := user]> users)
  end.

(** The JSON replies of the bulk route: [{ ok: true, count }] or an
    error. *)
Inductive BulkReply :=
  | BulkError (code : nat) (error : string)
  | BulkOk (count : nat).

(** [router.post('/users/bulk/subscription')] with the body fields [ids],
    [action] and [plan]. *)
Definition bulk_subscription (now : Date) (ids : list ObjectId)
    (action plan : string) (users : Users) : BulkReply * Users :=
  if bool_decide (ids = []) then (BulkError 400 "no ids", users)
  else if bool_decide (action = "cancel") then
    (BulkOk (length ids),
     updateMany (λ id _, bool_decide (id ∈ ids))
       (λ user,
          {| subscription_plan := plan_none;
             subscription_status := expired;
             subscription_start := subscription_start user;
             subscription_end := Some now;
             period_started_at := period_started_at user;
             read_books_in_period := read_books_in_period user;
             downloaded_books_in_period := downloaded_books_in_period user |})
       users)
  else if bool_decide (action = "grant") then
    match valid_plan plan with
    | None => (BulkError 400 "invalid plan", users)
    | Some p =>
        let end_ := now + thirty_days in
        (BulkOk (length ids),
         updateMany (λ id _, bool_decide (id ∈ ids))
           (λ _,
              {| subscription_plan := p;
                 subscription_status := active;
                 subscription_start := Some now;
                 subscription_end := Some end_;
                 period_started_at := Some now;
                 read_books_in_period := [];
                 downloaded_books_in_period := [] |})
           users)
    end
  else (BulkError 400 "invalid action", users).

(** The hourly job: [User.updateMany({ subscription_status: 'active',
    subscription_end: { $lt: now } }, { $set: { subscription_status:
    'expired' } })].  A missing [subscription_end] does not match [$lt]. *)
Definition expire_job (now : Date) (users : Users) : Users :=
  updateMany
    (λ _ user,
       bool_decide (subscription_status user = active)
       && match subscription_end user with
          | Some e => bool_decide (e < now)
          | None => false
          end)
    (λ user,
       {| subscription_plan := subscription_plan user;
          subscription_status := expired;
          subscription_start := subscription_start user;
          subscription_end := subscription_end user;
          period_started_at := period_started_at user;
          read_books_in_period := read_books_in_period user;
          downloaded_books_in_period := downloaded_books_in_period user |})
    users.

(** [router.post('/requests/:id/mark-processed')]: processed without a
    grant. *)
Definition mark_processed (now : Date) (id : ObjectId) (reqs : Requests)
  : ApproveReply * Requests :=
  match findById id reqs with
  | None => (NotFound, reqs)
  | Some reqDoc =>
      if bool_decide (status reqDoc = processed) then (OkReply, reqs)
      else
        let reqDoc' :=
          {| _id := _id reqDoc; user := user reqDoc; plan := plan reqDoc;
             status := processed; processed_at := Some now;
             note := note reqDoc |} in
        (OkReply, save reqDoc' reqs)
  end.

(** The key of the listing, [`${r.user?._id || 'nouser'}|${r.plan}|${r.status}`],
    after [populate]: [r.user] is the stored user, or null when no user
    has that id.  The three parts determine the string and the string
    determines them. *)
Definition list_key (users : Users) (r : SubscriptionRequest)
  : option ObjectId * Plan * ReqStatus :=
  (match users !! user r with
   | Some _ => Some (user r)
   | None => None
   end, plan r, status r).

(** The loop of the listing: keep an item unless its key was seen. *)
Fixpoint unique_from (users : Users)
    (seen : list (option ObjectId * Plan * ReqStatus))
    (items : Requests) : Requests :=
  match items with
  | [] => []
  | r :: rest =>
      let key := list_key users r in
      if bool_decide (key ∈ seen) then unique_from users seen rest
      else r :: unique_from users (key :: seen) rest
  end.

(** The query of the listing: [query.status = status] when the parameter
    is one of the two status names, no condition otherwise. *)
Definition status_query (status_param : string) (r : SubscriptionRequest)
  : bool :=
  if bool_decide (status_param = "pending")
  then bool_decide (status r = pending)
  else if bool_decide (status_param = "processed")
  then bool_decide (status r = processed)
  else true.

(** [router.get('/api/subscription-requests')]: the documents listed, in
    order.  [newest_first] is the collection as [sort({ createdAt: -1 })]
    orders it; [status_param] is [req.query.status || 'pending']. *)
Definition list_requests (status_param : string) (users : Users)
    (newest_first : Requests) : Requests :=
  unique_from users [] (List.filter (status_query status_param) newest_first).

End Admin.

(** ** Duplicate titles at upload (admin routes) *)

Module Catalog.

Import Similarity.

(** The title of a stored book; the other fields play no part in the
    check. *)
Record Book := mkBook { title : jsstring }.

Section upload.

(** [String.prototype.toLowerCase]. *)
Variable toLowerCase : jsstring → jsstring.

(** [similarity > 0.8].  Both sides are quotients of integers far below
    2^53, so the comparison of the doubles is the comparison of the
    rationals. *)
Definition above_threshold (similarity : Q) : bool :=
  negb (Qle_bool similarity (8 # 10)).

(** [existingBooks.filter(book => calculateSimilarity(title.toLowerCase(),
    book.title.toLowerCase()) > 0.8)] *)
Definition duplicates (candidate : jsstring) (existingBooks : list Book)
  : list Book :=
  List.filter
    (λ book,
       above_threshold
         (calculateSimilarity (toLowerCase candidate)
            (toLowerCase (title book))))
    existingBooks.

End upload.

End Catalog.

(** ** Favorites and reading list (user and reading-list routes) *)

Module Shelves.

Import Entitlement Access.

Local Open Scope Z_scope.

(** The two book arrays of a user document.  The handlers below read and
    write these two fields only. *)
Record Shelf := mkShelf {
  reading_list : list ObjectId;
  favorites : list ObjectId
}.

(** The two arrays of every stored user, by [_id]. *)
Abbreviation Shelves := (gmap ObjectId Shelf).

(** [$addToSet]: append unless present. *)
Definition addToSet (bookId : ObjectId) (arr : list ObjectId)
  : list ObjectId :=
  if bool_decide (bookId ∈ arr) then arr else arr ++ [bookId].

(** [$pull]: remove every entry equal to [bookId]. *)
Definition pull (bookId : ObjectId) (arr : list ObjectId) : list ObjectId :=
  filter (λ id, id ≠ bookId) arr.

(** The JSON replies of the favorites toggle. *)
Inductive ToggleReply :=
  | ToggleError (code : nat) (error : string)
  | Toggled (favorited : bool).

(** A [bookId] body field that passes [bookIdSchema], 24 hex digits of
    either case: [oid] is the ObjectId the digits denote, and [printed]
    tells whether the field is letter for letter what [toString()] prints
    for that id, which is in lower case. *)
Record HexId := mkHexId { oid : ObjectId; printed : bool }.

(** [router.post('/favorites/toggle')] for the logged-in user; [bookId] is
    the body field when it passes [bookIdSchema], [None] otherwise.  The
    test [id.toString() === bookId] compares strings; the two updates cast
    the field to an ObjectId. *)
Definition favorites_toggle (userId : ObjectId) (bookId : option HexId)
    (shelves : Shelves) : ToggleReply * Shelves :=
  match bookId with
  | None => (ToggleError 400 "invalid input", shelves)
  | Some bookId =>
      match shelves !! userId with
      | None => (ToggleError 404 "user not found", shelves)
      | Some shelf =>
          let exists_ :=
            existsb (λ id, bool_decide (id = oid bookId) && printed bookId)
              (favorites shelf) in
          if exists_ then
            (Toggled false,
             alter (λ s, {| reading_list := reading_list s;
                            favorites := pull (oid bookId) (favorites s) |})
               userId shelves)
          else
            (Toggled true,
             alter (λ s, {| reading_list := reading_list s;
                            favorites :=
                              addToSet (oid bookId) (favorites s) |})
               userId shelves)
      end
  end.

(** The JSON replies of the reading-list routes. *)
Inductive ListReply :=
  | ListError (code : nat) (error : string)
  | ListOk.

(** [router.post('/api/reading-list/add')]: the subscription is checked
    on the user collection, then the book is added to the set. *)
Definition reading_list_add (now : Date) (userId : ObjectId)
    (bookId : option ObjectId) (users : Users) (shelves : Shelves)
  : ListReply * Shelves :=
  match bookId with
  | None => (ListError 400 "invalid input", shelves)
  | Some bookId =>
      match ensureActiveSubscription now userId users with
      | Refused message => (ListError 403 message, shelves)
      | Ok =>
          (ListOk,
           alter (λ s, {| reading_list := addToSet bookId (reading_list s);
                          favorites := favorites s |})
             userId shelves)
      end
  end.

(** [router.post('/api/reading-list/remove')]: no subscription check. *)
Definition reading_list_remove (userId : ObjectId)
    (bookId : option ObjectId) (shelves : Shelves) : ListReply * Shelves :=
  match bookId with
  | None => (ListError 400 "invalid input", shelves)
  | Some bookId =>
      (ListOk,
       alter (λ s, {| reading_list := pull bookId (reading_list s);
                      favorites := favorites s |})
         userId shelves)
  end.

End Shelves.

(** ** A small library, for the examples *)

Module Fixtures.

Import Entitlement Requests Shelves.

Local Open Scope Z_scope.

(** User 7: a basic subscriber since time 0, paid up to time 1000, who
    has read books 1 and 2 and downloaded book 3. *)
Definition reader : User :=
  mkUser basic active (Some 0) (Some 1000) (Some 0) [1; 2]%N [3%N].

(** The user collection: user 7 only. *)
Definition library : Users := {[7%N := reader]}.

(** Request 1: user 7 asks for the premium plan. *)
Definition upgrade : SubscriptionRequest :=
  mkRequest 1%N 7%N premium pending None "please".

(** Request 2: a user 9 that is not stored asked for the basic plan. *)
Definition orphan : SubscriptionRequest :=
  mkRequest 2%N 9%N basic pending None "hello".

(** User 8: registered, never subscribed. *)
Definition newcomer : User :=
  mkUser plan_none status_none None None None [] [].

(** The user collection with users 7 and 8. *)
Definition library2 : Users := {[7%N := reader; 8%N := newcomer]}.

(** Request 4: user 8 asks for the premium plan too. *)
Definition upgrade8 : SubscriptionRequest :=
  mkRequest 4%N 8%N premium pending None "me too".

(** Request 5: an earlier request of user 7, processed at time 3. *)
Definition settled : SubscriptionRequest :=
  mkRequest 5%N 7%N premium processed (Some 3) "last year".

(** The request collection, newest first. *)
Definition queue : Requests := [upgrade8; upgrade; settled].

(** The books of user 7: book 4 on the reading list, book 5 a favorite. *)
Definition shelf7 : Shelf := mkShelf [4%N] [5%N].

(** The books of every user. *)
Definition shelves7 : Shelves := {[7%N := shelf7]}.

End Fixtures.

Import Similarity Entitlement Requests.
Import Access Admin Catalog Shelves Fixtures.

(** * Properties *)

(** ** Similarity scorer *)

Section similarity_facts.

Implicit Types (p q : jsstring) (l : list jsstring).
Implicit Types (a b s : jsstring).

Lemma length_pairs_of s : length (pairs_of s) = (length s - 1)%nat.
Proof. unfold pairs_of. by rewrite length_fmap, length_seq. Qed.

Lemma splice_first_Some p l l' :
  splice_first p l = Some l' →
  bag l = {[+ p +]} ⊎ bag l' ∧ length l = S (length l').
Proof.
  revert l'. induction l as [|q l IH]; intros l'; simpl; [done|].
  case_decide as Hpq.
  - intros [= <-]. by subst q.
  - destruct (splice_first p l) as [l0|] eqn:E; simpl; [|done].
    intros [= <-]. destruct (IH l0 eq_refl) as [Hb Hl].
    split; [|simpl; by rewrite Hl].
    replace (bag (q :: l)) with ({[+ q +]} ⊎ bag l) by done.
    replace (bag (q :: l0)) with ({[+ q +]} ⊎ bag l0) by done.
    rewrite Hb, !(assoc_L (⊎)). f_equal. apply (comm_L (⊎)).
Qed.

Lemma splice_first_None p l : splice_first p l = None → p ∉ bag l.
Proof.
  induction l as [|q l IH]; simpl.
  - intros _. apply not_elem_of_multiplicity, multiplicity_empty.
  - case_decide as Hpq; [done|].
    destruct (splice_first p l) eqn:E; simpl; [done|].
    intros _. pose proof (IH eq_refl) as Hn%not_elem_of_multiplicity.
    apply not_elem_of_multiplicity.
    replace (bag (q :: l)) with ({[+ q +]} ⊎ bag l) by done.
    rewrite multiplicity_disj_union, Hn, multiplicity_singleton_ne by done.
    done.
Qed.

Lemma bag_inter_cons_hit p (X Y : gmultiset jsstring) :
  ({[+ p +]} ⊎ X) ∩ ({[+ p +]} ⊎ Y) = {[+ p +]} ⊎ (X ∩ Y).
Proof. multiset_solver. Qed.

Lemma bag_inter_cons_miss p (X Y : gmultiset jsstring) :
  p ∉ Y → ({[+ p +]} ⊎ X) ∩ Y = X ∩ Y.
Proof.
  intros Hp%not_elem_of_multiplicity. apply gmultiset_eq. intros x.
  rewrite !multiplicity_intersection, multiplicity_disj_union.
  destruct (decide (x = p)) as [->|Hne].
  - rewrite Hp. lia.
  - rewrite multiplicity_singleton_ne by done. lia.
Qed.

(** The loop counts the common part of the two bags, and what is left of
    [pairs2] is shorter by exactly that count. *)
Lemma intersect_bag (pairs1 pairs2 : list jsstring) n :
  (intersect pairs1 pairs2 n).1 = (n + size (bag pairs1 ∩ bag pairs2))%nat ∧
  (length (intersect pairs1 pairs2 n).2 + size (bag pairs1 ∩ bag pairs2))%nat
  = length pairs2.
Proof.
  revert pairs2 n. induction pairs1 as [|p pairs1 IH]; intros pairs2 n; simpl.
  - unfold bag at 1 3. simpl.
    rewrite (left_absorb_L ∅ (∩)), gmultiset_size_empty. lia.
  - destruct (splice_first p pairs2) as [l'|] eqn:E.
    + apply splice_first_Some in E as [Hb Hl].
      destruct (IH l' (S n)) as [H1 H2].
      replace (bag (p :: pairs1)) with ({[+ p +]} ⊎ bag pairs1) by done.
      rewrite Hb, bag_inter_cons_hit, gmultiset_size_disj_union,
        gmultiset_size_singleton.
      lia.
    + apply splice_first_None in E.
      destruct (IH pairs2 n) as [H1 H2].
      replace (bag (p :: pairs1)) with ({[+ p +]} ⊎ bag pairs1) by done.
      rewrite bag_inter_cons_miss by done. lia.
Qed.

(** The array left behind is shorter by the number of matches. *)
Lemma intersect_length (pairs1 pairs2 : list jsstring) :
  length (intersect pairs1 pairs2 0).2 + (intersect pairs1 pairs2 0).1
  = length pairs2.
Proof.
  destruct (intersect_bag pairs1 pairs2 0) as [-> <-]. done.
Qed.

(** The number of matches does not depend on the order of the arguments. *)
Lemma intersect_comm (pairs1 pairs2 : list jsstring) :
  (intersect pairs1 pairs2 0).1 = (intersect pairs2 pairs1 0).1.
Proof.
  rewrite (proj1 (intersect_bag pairs1 pairs2 0)).
  rewrite (proj1 (intersect_bag pairs2 pairs1 0)).
  by rewrite (comm_L (∩)).
Qed.

(** What the function returns past its two guards: twice the number of
    matches, over the length of [pairs1] plus the length of what the loop
    left of [pairs2]. *)
Lemma calculateSimilarity_formula a b :
  a ≠ b → 2 ≤ length a → 2 ≤ length b →
  let i := (intersect (pairs_of a) (pairs_of b) 0).1 in
  calculateSimilarity a b
  = (inject_Z (2 * Z.of_nat i)
     / inject_Z (Z.of_nat (length a - 1) + Z.of_nat (length b - 1 - i)))%Q.
Proof.
  intros Hab Ha Hb. unfold calculateSimilarity.
  rewrite decide_False by done.
  rewrite decide_False by lia.
  pose proof (intersect_length (pairs_of a) (pairs_of b)) as Hlen.
  destruct (intersect (pairs_of a) (pairs_of b) 0) as [i rest]; simpl in *.
  rewrite !length_pairs_of in *.
  replace (length rest) with (length b - 1 - i) by lia. done.
Qed.

End similarity_facts.

(** C1 (defect in the code).  The score is meant to be the Dice
    coefficient [2 * I / (|bigrams a| + |bigrams b|)], which lies in [0,1]
    and is 1/4 on night and nacht.  The function divides by the length that
    [pairs2] has after the matching loop has removed the [I] matched
    entries: on night and nacht it returns 2/7, and on aba and bab, two
    different strings with the same bigrams, it returns 2. *)
Theorem calculateSimilarity_not_dice :
  (calculateSimilarity (lit "night") (lit "nacht") == 2 # 7)%Q ∧
  (dice (lit "night") (lit "nacht") == 1 # 4)%Q ∧
  (calculateSimilarity (lit "aba") (lit "bab") == 2)%Q ∧
  (dice (lit "aba") (lit "bab") == 1)%Q ∧
  ¬ (calculateSimilarity (lit "aba") (lit "bab") <= 1)%Q.
Proof. repeat split; vm_compute; congruence. Qed.

(** C8.  The score is symmetric: for all strings [a] and [b],
    [calculateSimilarity a b] and [calculateSimilarity b a] are the same
    number. *)
Theorem calculateSimilarity_sym (a b : jsstring) :
  calculateSimilarity a b = calculateSimilarity b a.
Proof.
  destruct (decide (a = b)) as [->|Hab]; [done|].
  destruct (decide (length a < 2 ∨ length b < 2)) as [Hshort|Hlong].
  - unfold calculateSimilarity.
    rewrite (decide_False (P := a = b)) by done.
    rewrite (decide_False (P := b = a)) by done.
    rewrite !decide_True by tauto. done.
  - rewrite !calculateSimilarity_formula by (done || lia). simpl.
    rewrite (intersect_comm (pairs_of b) (pairs_of a)).
    pose proof (intersect_length (pairs_of a) (pairs_of b)) as Hb.
    pose proof (intersect_length (pairs_of b) (pairs_of a)) as Ha.
    rewrite (intersect_comm (pairs_of b) (pairs_of a)) in Ha.
    rewrite !length_pairs_of in *.
    do 2 f_equal. lia.
Qed.

(** C9 (as the code has it).  When at least one of the two strings has
    fewer than two characters, the score is 0 if the strings differ and 1
    if they are the same string: the test for identical strings comes
    first. *)
Theorem calculateSimilarity_short (a b : jsstring) :
  length a < 2 ∨ length b < 2 →
  calculateSimilarity a b = if decide (a = b) then 1%Q else 0%Q.
Proof.
  intros Hshort. unfold calculateSimilarity.
  destruct (decide (a = b)); [done|]. by rewrite decide_True.
Qed.

Lemma calculateSimilarity_short_witness :
  calculateSimilarity (lit "a") (lit "hello") = 0%Q.
Proof.
  apply (calculateSimilarity_short (lit "a") (lit "hello")).
  left. simpl. lia.
Defined.

(** C9, counterexample: two identical one-character strings score 1. *)
Lemma calculateSimilarity_short_identical :
  length (lit "a") < 2 ∧ ¬ (calculateSimilarity (lit "a") (lit "a") == 0)%Q.
Proof. split; [simpl; lia | vm_compute; congruence]. Qed.

(** ** Period manager *)

Section period_facts.

Local Open Scope Z_scope.

Implicit Types (user : User) (now s : Date).

Lemma period_over_due now user :
  period_over (anchor user) now = true ↔ due now user.
Proof.
  unfold due. destruct (anchor user) as [s|]; simpl.
  - rewrite bool_decide_eq_true. split.
    + intros H. right. by exists s.
    + intros [?|(s' & [= <-] & H)]; done.
  - split; [by left | done].
Qed.

Lemma reset_when_due now user :
  due now user → resetPeriodIfNeeded now user = cleared now user.
Proof.
  intros H%period_over_due. unfold resetPeriodIfNeeded.
  fold (anchor user). by rewrite H.
Qed.

Lemma reset_when_not_due now user :
  ¬ due now user → resetPeriodIfNeeded now user = user.
Proof.
  intros H. unfold resetPeriodIfNeeded. fold (anchor user).
  destruct (period_over (anchor user) now) eqn:E; [|done].
  by apply period_over_due in E.
Qed.

Lemma reset_current now user s :
  anchor user = Some s → now - s ≤ thirty_days →
  resetPeriodIfNeeded now user = user.
Proof.
  intros Ha Hs. apply reset_when_not_due.
  intros [Hn|(s' & Hs' & Hgt)]; [congruence|].
  rewrite Ha in Hs'. injection Hs' as <-. lia.
Qed.

Lemma cleared_not_due now user : ¬ due now (cleared now user).
Proof.
  intros [Hn|(s & [= <-] & Hgt)]; [done|].
  unfold thirty_days in Hgt. lia.
Qed.

(** C4 (as the code has it).  The reset is performed exactly when the
    period anchor, which is [period_started_at] or else
    [subscription_start], is unset or lies more than 30 days before [now].
    When performed it empties both usage arrays and sets
    [period_started_at] to [now]; otherwise the user is left as it is; and
    a second call at the same instant changes nothing more. *)
Theorem resetPeriodIfNeeded_spec now user :
  (due now user → resetPeriodIfNeeded now user = cleared now user) ∧
  (¬ due now user → resetPeriodIfNeeded now user = user) ∧
  resetPeriodIfNeeded now (resetPeriodIfNeeded now user)
  = resetPeriodIfNeeded now user.
Proof.
  split; [apply reset_when_due|]. split; [apply reset_when_not_due|].
  destruct (period_over (anchor user) now) eqn:E.
  - apply period_over_due in E as Hd. rewrite (reset_when_due _ _ Hd).
    apply reset_when_not_due, cleared_not_due.
  - assert (¬ due now user) as Hd.
    { intros Hd%period_over_due. congruence. }
    rewrite (reset_when_not_due _ _ Hd). by apply reset_when_not_due.
Qed.

(** C4, counterexample: [period_started_at] is unset, yet no reset is
    performed, because [subscription_start] is recent; the usage arrays
    keep their entries. *)
Lemma reset_not_performed_without_period_start :
  let user := mkUser basic active (Some 0) (Some thirty_days) None [1%N] [2%N] in
  period_started_at user = None ∧
  resetPeriodIfNeeded 1000 user = user ∧
  downloaded_books_in_period (resetPeriodIfNeeded 1000 user) ≠ [] ∧
  period_started_at (resetPeriodIfNeeded 1000 user) ≠ Some 1000.
Proof. vm_compute. repeat split; congruence. Qed.

(** The reset at a concrete user: the period started at time 0 and the
    clock reads one millisecond past the thirtieth day. *)
Lemma resetPeriodIfNeeded_spec_witness :
  let user0 :=
    mkUser basic active (Some 0) (Some 3000000000) (Some 0) [8%N] [1; 2]%N in
  resetPeriodIfNeeded 2592000001 user0
  = mkUser basic active (Some 0) (Some 3000000000) (Some 2592000001) [] [].
Proof.
  intros user0.
  apply (proj1 (resetPeriodIfNeeded_spec 2592000001 user0)).
  right. exists 0. split; [reflexivity | unfold thirty_days; lia].
Defined.

End period_facts.

(** ** The gate in front of read and download *)

Section gate_facts.

Local Open Scope Z_scope.

Implicit Types (users : Users) (user : User).
Implicit Types (userId bookId : ObjectId) (now e s : Date).

Lemma some_equals_true bookId (arr : list ObjectId) :
  some_equals bookId arr = true ↔ bookId ∈ arr.
Proof.
  unfold some_equals. rewrite existsb_exists. split.
  - intros (x & Hin%list_elem_of_In & ->%bool_decide_eq_true). done.
  - intros Hin. exists bookId. split; [by apply list_elem_of_In|].
    by apply bool_decide_eq_true.
Qed.

Lemma some_equals_false bookId (arr : list ObjectId) :
  some_equals bookId arr = false ↔ bookId ∉ arr.
Proof.
  rewrite <- some_equals_true. by destruct (some_equals bookId arr).
Qed.

Lemma inactive_false now user e :
  subscription_status user = active → subscription_end user = Some e →
  now ≤ e → inactive now user = false.
Proof.
  intros Hs He Hle. unfold inactive. rewrite Hs, He.
  rewrite bool_decide_eq_false_2 by (intros H; by apply H).
  simpl. apply bool_decide_eq_false_2. lia.
Qed.

(** A download request of a basic subscriber whose subscription and usage
    period are in force comes down to the quota test. *)
Lemma gate_download_in_force users userId user bookId e s t :
  users !! userId = Some user → basic_subscriber e s user → in_force e s t →
  ensureActiveAndWithinLimits t.1 t.2 userId bookId "download" users
  = if some_equals bookId (downloaded_books_in_period user)
    then (Ok, <[userId := user]> users)
    else if bool_decide (5 ≤ length (downloaded_books_in_period user))%nat
         then (DownloadLimit, users)
         else (Ok, <[userId := push_downloaded bookId user]> users).
Proof.
  intros Hu (Hs & Hp & He & Ha) [Ht1 Ht2]. unfold ensureActiveAndWithinLimits.
  rewrite Hu, (inactive_false _ _ e) by done.
  rewrite (reset_current _ _ s) by done.
  rewrite Hp. simpl.
  by destruct (some_equals bookId (downloaded_books_in_period user)).
Qed.

Lemma basic_subscriber_push e s bookId user :
  basic_subscriber e s user → basic_subscriber e s (push_downloaded bookId user).
Proof. by intros (? & ? & ? & ?). Qed.

Lemma with_downloaded_push ids bookId user :
  with_downloaded ids (push_downloaded bookId user) = with_downloaded ids user.
Proof. done. Qed.

Lemma with_downloaded_same user :
  with_downloaded (downloaded_books_in_period user) user = user.
Proof. by destruct user. Qed.

(** Downloads of distinct new books, as long as the quota of five is not
    exceeded, are all let through and are appended to the usage array. *)
Lemma downloads_within_quota userId e s (ids : list ObjectId) :
  ∀ (clock : list (Date * Date)) users user,
  users !! userId = Some user → basic_subscriber e s user →
  NoDup (downloaded_books_in_period user ++ ids) →
  (length (downloaded_books_in_period user) + length ids ≤ 5)%nat →
  length clock = length ids → Forall (in_force e s) clock →
  downloads userId (zip ids clock) users
  = (replicate (length ids) Ok,
     <[userId := with_downloaded (downloaded_books_in_period user ++ ids) user]>
       users).
Proof.
  induction ids as [|id ids IH]; intros clock users user Hu Hsub Hnd Hlen Hc Hf.
  - simpl. rewrite app_nil_r, with_downloaded_same. by rewrite insert_id.
  - destruct clock as [|t clock]; [done|]. simpl in Hc, Hlen.
    inversion_clear Hf as [|?? Ht Hf']. destruct t as [now now'].
    simpl.
    pose proof (gate_download_in_force users userId user id e s (now, now')
                  Hu Hsub Ht) as Hstep. simpl in Hstep. rewrite Hstep.
    assert (id ∉ downloaded_books_in_period user) as Hnew.
    { apply list.NoDup_app in Hnd as (_ & Hdisj & _). intros Hin.
      apply (Hdisj id Hin). by left. }
    apply some_equals_false in Hnew. rewrite Hnew.
    rewrite bool_decide_eq_false_2 by lia.
    rewrite (IH clock _ (push_downloaded id user)).
    + simpl. rewrite insert_insert_eq, with_downloaded_push.
      by rewrite <- (assoc_L (++)).
    + by rewrite lookup_insert_eq.
    + by apply basic_subscriber_push.
    + simpl. by rewrite <- (assoc_L (++)).
    + simpl. rewrite length_app. simpl. lia.
    + lia.
    + done.
Qed.

(** C2.  Quota boundary.  For an active basic subscriber whose
    subscription and usage period are in force at every call and whose
    period has no download recorded yet: five downloads of distinct books
    are each let through, and leave exactly those five ids in the usage
    array; after that a download of any other book is refused with the
    download-limit message, and a download of any of the five is let
    through again and leaves the stored user, hence the size of the usage
    array, as it was. *)
Theorem basic_download_quota users userId user e s
    (ids : list ObjectId) (clock : list (Date * Date)) :
  users !! userId = Some user →
  basic_subscriber e s user →
  downloaded_books_in_period user = [] →
  NoDup ids → length ids = 5%nat →
  length clock = 5%nat → Forall (in_force e s) clock →
  let users5 := <[userId := with_downloaded ids user]> users in
  downloads userId (zip ids clock) users = (replicate 5 Ok, users5) ∧
  ∀ t, in_force e s t →
    (∀ id6, id6 ∉ ids →
       ensureActiveAndWithinLimits t.1 t.2 userId id6 "download" users5
       = (DownloadLimit, users5)) ∧
    (∀ id, id ∈ ids →
       ensureActiveAndWithinLimits t.1 t.2 userId id "download" users5
       = (Ok, users5)).
Proof.
  intros Hu Hsub Hd Hnd Hlen Hc Hf users5.
  assert (users5 !! userId = Some (with_downloaded ids user)) as Hu5.
  { apply lookup_insert_eq. }
  assert (basic_subscriber e s (with_downloaded ids user)) as Hsub5.
  { by destruct Hsub as (? & ? & ? & ?). }
  split.
  - rewrite (downloads_within_quota userId e s ids clock users user);
      rewrite ?Hd, ?Hlen; simpl; try done; lia.
  - intros t Ht. split.
    + intros id6 Hid6.
      rewrite (gate_download_in_force _ _ _ _ e s t Hu5 Hsub5 Ht). simpl.
      apply some_equals_false in Hid6. rewrite Hid6, Hlen. done.
    + intros id Hid.
      rewrite (gate_download_in_force _ _ _ _ e s t Hu5 Hsub5 Ht). simpl.
      apply some_equals_true in Hid. rewrite Hid.
      by rewrite (insert_id _ _ _ Hu5).
Qed.

(** C3.  Period rollover.  For an active basic subscriber whose
    subscription has not ended, whose [period_started_at] lies more than
    30 days back and whose download array holds five entries, a download
    request first empties both usage arrays and sets [period_started_at]
    to the current time, and is then let through: the stored user is the
    reset one with the requested book as its only download.  While the
    period was still current, the same request for a new book was refused
    with the download-limit message. *)
Theorem period_rollover users userId user bookId e s now now' :
  users !! userId = Some user →
  subscription_status user = active → subscription_plan user = basic →
  subscription_end user = Some e → now ≤ e →
  period_started_at user = Some s → now' - s > thirty_days →
  length (downloaded_books_in_period user) = 5%nat →
  resetPeriodIfNeeded now' user = cleared now' user ∧
  ensureActiveAndWithinLimits now now' userId bookId "download" users
  = (Ok, <[userId := push_downloaded bookId (cleared now' user)]> users) ∧
  ∀ t, in_force e s t → bookId ∉ downloaded_books_in_period user →
    ensureActiveAndWithinLimits t.1 t.2 userId bookId "download" users
    = (DownloadLimit, users).
Proof.
  intros Hu Hs Hp He Hle Hps Hold Hfull.
  assert (anchor user = Some s) as Ha.
  { unfold anchor. by rewrite Hps. }
  assert (resetPeriodIfNeeded now' user = cleared now' user) as Hreset.
  { apply reset_when_due. right. by exists s. }
  split; [done|]. split.
  - unfold ensureActiveAndWithinLimits.
    rewrite Hu, (inactive_false _ _ e), Hreset by done.
    simpl. by rewrite Hp.
  - intros t Ht Hnew.
    rewrite (gate_download_in_force _ _ user _ e s t) by done.
    apply some_equals_false in Hnew. by rewrite Hnew, Hfull.
Qed.

(** C5.  A user stored as active whose [subscription_end] is unset or in
    the past is refused with the subscription-inactive message, whatever
    the book and the action, and the user collection is left as it was:
    the stored status is not corrected by the gate. *)
Theorem expired_subscription_refused users userId user bookId type now now' :
  users !! userId = Some user →
  subscription_status user = active →
  (subscription_end user = None
   ∨ ∃ e, subscription_end user = Some e ∧ e < now) →
  ensureActiveAndWithinLimits now now' userId bookId type users
  = (SubscriptionInactive, users).
Proof.
  intros Hu Hs Hend. unfold ensureActiveAndWithinLimits. rewrite Hu.
  assert (inactive now user = true) as ->; [|done].
  unfold inactive. apply orb_true_iff. right.
  destruct Hend as [->|(e & -> & Hlt)]; [done|].
  by apply bool_decide_eq_true.
Qed.

(** C10.  Whenever the gate refuses, for whatever reason, the user
    collection is left exactly as it was found: [save] is reached on the
    success path only, so a period reset carried out on the loaded
    document before a refusal is not stored. *)
Theorem refusal_persists_nothing users userId bookId type now now'
    message users' :
  ensureActiveAndWithinLimits now now' userId bookId type users
  = (Refused message, users') →
  users' = users.
Proof.
  unfold ensureActiveAndWithinLimits, UserNotFound, SubscriptionInactive,
    NoActivePlan, ReadLimit, DownloadLimit.
  repeat case_match; intros [= ]; by subst.
Qed.

(** *** The theorems above at concrete users *)

(** User 7: a basic subscriber since time 0, paid up to time 1000, with
    nothing read or downloaded yet. *)
Lemma basic_download_quota_witness :
  let user0 := mkUser basic active (Some 0) (Some 1000) (Some 0) [] [] in
  let users0 : Users := {[7%N := user0]} in
  let ids := [1; 2; 3; 4; 5]%N in
  let users5 : Users := <[7%N := with_downloaded ids user0]> users0 in
  downloads 7%N (zip ids (replicate 5 (10, 10))) users0 = (replicate 5 Ok, users5) ∧
  ensureActiveAndWithinLimits 20 20 7%N 6%N "download" users5
  = (DownloadLimit, users5) ∧
  ensureActiveAndWithinLimits 20 20 7%N 3%N "download" users5 = (Ok, users5).
Proof.
  intros user0 users0 ids users5.
  assert (Forall (in_force 1000 0) (replicate 5 (10, 10))) as Hclock.
  { repeat constructor; unfold thirty_days; simpl; lia. }
  assert (NoDup ids) as Hnd.
  { apply (bool_decide_unpack _). vm_compute. exact I. }
  assert (basic_subscriber 1000 0 user0) as Hsub.
  { repeat split. }
  pose proof (basic_download_quota users0 7%N user0 1000 0 ids
                (replicate 5 (10, 10)) eq_refl Hsub eq_refl Hnd eq_refl
                eq_refl Hclock) as [Hfive Hthen].
  split; [exact Hfive|].
  assert (in_force 1000 0 (20, 20)) as Ht.
  { split; unfold thirty_days; simpl; lia. }
  destruct (Hthen (20, 20) Ht) as [Hsixth Hagain]. split.
  - apply (Hsixth 6%N). apply some_equals_false. reflexivity.
  - apply (Hagain 3%N). apply some_equals_true. reflexivity.
Defined.

(** C2, counterexample: user 7 of the small library is an active basic
    subscriber whose subscription and usage period are in force, and has
    one download on record in the period.  Of five downloads of distinct
    new books the first four are let through and the fifth is refused
    with the download-limit message. *)
Lemma basic_download_quota_counts_earlier_downloads :
  library !! 7%N = Some reader ∧
  basic_subscriber 1000 0 reader ∧
  Forall (in_force 1000 0) (replicate 5 (10, 10)) ∧
  NoDup [11; 12; 13; 14; 15]%N ∧
  (downloads 7%N (zip [11; 12; 13; 14; 15]%N (replicate 5 (10, 10)))
     library).1
  = [Ok; Ok; Ok; Ok; DownloadLimit] ∧
  (downloads 7%N (zip [11; 12; 13; 14; 15]%N (replicate 5 (10, 10)))
     library).1
  ≠ replicate 5 Ok.
Proof.
  split; [reflexivity|]. split; [repeat split|].
  split; [repeat constructor; unfold thirty_days; simpl; lia|].
  split; [apply (bool_decide_unpack _); vm_compute; exact I|].
  split; [reflexivity | discriminate].
Qed.

(** User 7 with five downloads in a period started at time 0, asking for
    book 6 one millisecond after the thirtieth day. *)
Lemma period_rollover_witness :
  let user0 :=
    mkUser basic active (Some 0) (Some 3000000000) (Some 0) [8%N]
      [1; 2; 3; 4; 5]%N in
  let users0 : Users := {[7%N := user0]} in
  ensureActiveAndWithinLimits 2592000001 2592000001 7%N 6%N "download" users0
  = (Ok, <[7%N := mkUser basic active (Some 0) (Some 3000000000)
                    (Some 2592000001) [] [6%N]]> users0).
Proof.
  intros user0 users0.
  assert (2592000001 ≤ 3000000000) as Hle by lia.
  assert (2592000001 - 0 > thirty_days) as Hold by (unfold thirty_days; lia).
  pose proof (period_rollover users0 7%N user0 6%N 3000000000 0
                2592000001 2592000001 eq_refl eq_refl eq_refl eq_refl Hle
                eq_refl Hold eq_refl) as (_ & Hgate & _).
  exact Hgate.
Defined.

(** User 7 stored as active although the subscription ended at time 5. *)
Lemma expired_subscription_refused_witness :
  let user0 := mkUser premium active (Some 0) (Some 5) (Some 0) [] [] in
  let users0 : Users := {[7%N := user0]} in
  ensureActiveAndWithinLimits 10 10 7%N 6%N "read" users0
  = (SubscriptionInactive, users0).
Proof.
  intros user0 users0.
  apply (expired_subscription_refused users0 7%N user0 6%N "read" 10 10);
    [reflexivity | reflexivity |].
  right. exists 5. split; [reflexivity | lia].
Defined.

(** User 7 is active without a plan, and the usage period, started at time
    0, is over: the reset is due, the request is refused, and the stored
    user still has the old period and the old usage. *)
Lemma refusal_persists_nothing_witness :
  let user0 :=
    mkUser plan_none active (Some 0) (Some 5000000000) (Some 0) [1%N] [2%N] in
  let users0 : Users := {[7%N := user0]} in
  due 3000000000 user0 ∧
  (ensureActiveAndWithinLimits 3000000000 3000000000 7%N 9%N "read" users0).2
  = users0.
Proof.
  intros user0 users0. split.
  - right. exists 0. split; [reflexivity | unfold thirty_days; lia].
  - apply (refusal_persists_nothing users0 7%N 9%N "read" 3000000000
             3000000000 "No active plan. Please subscribe.").
    reflexivity.
Defined.

End gate_facts.

(** ** Subscription requests *)

Section request_facts.

Local Open Scope Z_scope.

Implicit Types (reqs : Requests) (r doc : SubscriptionRequest).
Implicit Types (users : Users) (id userId : ObjectId) (p : Plan).

Lemma findById_Some id reqs r :
  findById id reqs = Some r → r ∈ reqs ∧ _id r = id.
Proof.
  intros [Hin Hid]%find_some. split; [by apply list_elem_of_In|].
  by apply bool_decide_eq_true in Hid.
Qed.

(** After [doc.save()], a lookup by the id of [doc] finds [doc]. *)
Lemma findById_save doc reqs r :
  findById (_id doc) reqs = Some r → findById (_id doc) (save doc reqs) = Some doc.
Proof.
  unfold findById, save. induction reqs as [|r0 reqs IH]; simpl; [done|].
  destruct (bool_decide (_id r0 = _id doc)) eqn:E.
  - intros _. by rewrite bool_decide_eq_true_2.
  - rewrite E. apply IH.
Qed.

Lemma findOne_app_None (f : SubscriptionRequest → bool) reqs reqs' :
  findOne f reqs = None → findOne f (reqs ++ reqs') = findOne f reqs'.
Proof.
  unfold findOne. induction reqs as [|r reqs IH]; simpl; [done|].
  by destruct (f r).
Qed.

Lemma findOne_None userId p reqs :
  findOne (pending_for userId p) reqs = None →
  filter (λ r, pending_for userId p r = true) reqs = [].
Proof.
  unfold findOne. intros Hnone.
  induction reqs as [|r reqs IH]; [done|]. simpl in Hnone.
  destruct (pending_for userId p r) eqn:E; [done|].
  rewrite filter_cons_False by congruence. by apply IH.
Qed.

Lemma findOne_unique userId p reqs r :
  one_pending reqs → r ∈ reqs → pending_for userId p r = true →
  findOne (pending_for userId p) reqs = Some r.
Proof.
  intros Hone Hin Hr. unfold findOne.
  destruct (find (pending_for userId p) reqs) as [r0|] eqn:E.
  - apply find_some in E as [Hin0%list_elem_of_In Hr0].
    specialize (Hone userId p).
    assert (r ∈ filter (λ r, pending_for userId p r = true) reqs) as H1
      by by apply list_elem_of_filter.
    assert (r0 ∈ filter (λ r, pending_for userId p r = true) reqs) as H2
      by by apply list_elem_of_filter.
    destruct (filter (λ r, pending_for userId p r = true) reqs)
      as [|x [|y l]]; simpl in Hone; [|..|lia].
    + by apply elem_of_nil in H1.
    + apply list_elem_of_singleton in H1, H2. congruence.
  - exfalso. apply list_elem_of_In in Hin.
    pose proof (find_none _ _ E r Hin). congruence.
Qed.

Lemma pending_for_inv userId p userId' p' r :
  pending_for userId p r = true → pending_for userId' p' r = true →
  userId' = userId ∧ p' = p.
Proof.
  unfold pending_for. rewrite !andb_true_iff, !bool_decide_eq_true.
  intros [[<- <-] _] [[<- <-] _]. done.
Qed.

Lemma subscribe_request_one_pending new_id userId body_plan body_note reqs :
  one_pending reqs →
  one_pending (subscribe_request new_id userId body_plan body_note reqs).2.
Proof.
  intros Hone. unfold subscribe_request.
  destruct (valid_plan body_plan) as [p|]; [|done].
  destruct (findOne (pending_for userId p) reqs) as [r|] eqn:E; [done|].
  simpl. intros userId' p'. rewrite list.filter_app, length_app.
  match goal with |- context [filter _ [?d]] => set (doc := d) end.
  destruct (pending_for userId' p' doc) eqn:Ed.
  - assert (pending_for userId p doc = true) as Hd.
    { unfold pending_for. simpl. by rewrite !bool_decide_eq_true_2. }
    destruct (pending_for_inv _ _ _ _ _ Hd Ed) as [-> ->].
    rewrite (findOne_None _ _ _ E).
    rewrite filter_cons_True by done. simpl. lia.
  - rewrite filter_cons_False by congruence. simpl.
    specialize (Hone userId' p'). lia.
Qed.

(** The property holds of the empty collection, and approving a request
    keeps it: [save] stores a processed document. *)
Lemma one_pending_nil : one_pending [].
Proof. intros ??. simpl. lia. Qed.

Lemma save_processed_pending userId p doc reqs :
  status doc = processed →
  (length (filter (λ r, pending_for userId p r = true) (save doc reqs))
   ≤ length (filter (λ r, pending_for userId p r = true) reqs))%nat.
Proof.
  intros Hdoc. unfold save. induction reqs as [|r reqs IH]; [done|].
  assert (pending_for userId p doc = false) as Hnp.
  { unfold pending_for. rewrite Hdoc. simpl. by rewrite andb_false_r. }
  rewrite fmap_cons.
  destruct (bool_decide (_id r = _id doc)).
  - rewrite (filter_cons_False _ doc) by congruence.
    destruct (decide (pending_for userId p r = true)).
    + rewrite (filter_cons_True _ r) by done. cbn [length]. lia.
    + by rewrite (filter_cons_False _ r).
  - destruct (decide (pending_for userId p r = true)).
    + rewrite !(filter_cons_True _ r) by done. cbn [length]. lia.
    + by rewrite !(filter_cons_False _ r).
Qed.

Lemma approve_one_pending now now' id users reqs :
  one_pending reqs → one_pending (approve now now' id (users, reqs)).2.2.
Proof.
  intros Hone. unfold approve.
  destruct (findById id reqs) as [r|]; [|done].
  destruct (bool_decide (status r = processed)); [done|].
  destruct (users !! user r); [|done]. simpl.
  intros userId p. specialize (Hone userId p).
  etrans; [by apply save_processed_pending|done].
Qed.

(** Of two calls in a row, the second finds the request of the first. *)
Lemma subscribe_request_twice new_id userId body_plan p body_note reqs :
  valid_plan body_plan = Some p →
  ∃ i, let '(reply, reqs1) :=
         subscribe_request new_id userId body_plan body_note reqs in
       (reply = Created i ∨ reply = AlreadyPending i) ∧
       ∀ new_id' body_note',
         subscribe_request new_id' userId body_plan body_note' reqs1
         = (AlreadyPending i, reqs1).
Proof.
  intros Hp. unfold subscribe_request. rewrite Hp.
  destruct (findOne (pending_for userId p) reqs) as [r|] eqn:E.
  - exists (_id r). split; [by right|]. intros ??. by rewrite E.
  - exists new_id. split; [by left|]. intros ??.
    rewrite (findOne_app_None _ _ _ E). simpl.
    unfold pending_for at 1. simpl. by rewrite !bool_decide_eq_true_2.
Qed.

(** C7.  At most one pending request per user and plan.  For a valid plan,
    the handler keeps that property of the collection; when a pending
    request of the same user for the same plan is stored, the reply
    carries the id of that request and the collection is left as it was;
    and of two calls in a row for the same user and plan the second
    answers with the id given by the first and stores nothing. *)
Theorem pending_request_absorbed new_id userId body_plan p body_note reqs :
  valid_plan body_plan = Some p →
  one_pending reqs →
  one_pending (subscribe_request new_id userId body_plan body_note reqs).2 ∧
  (∀ r, r ∈ reqs → pending_for userId p r = true →
     subscribe_request new_id userId body_plan body_note reqs
     = (AlreadyPending (_id r), reqs)) ∧
  (∃ i, let '(reply, reqs1) :=
          subscribe_request new_id userId body_plan body_note reqs in
        (reply = Created i ∨ reply = AlreadyPending i) ∧
        ∀ new_id' body_note',
          subscribe_request new_id' userId body_plan body_note' reqs1
          = (AlreadyPending i, reqs1)).
Proof.
  intros Hp Hone. split; [by apply subscribe_request_one_pending|].
  split; [|by apply (subscribe_request_twice _ _ _ p)].
  intros r Hin Hr. unfold subscribe_request.
  by rewrite Hp, (findOne_unique _ _ _ r).
Qed.

(** C6.  Approving a request that is not stored answers 404 not found;
    approving a request already processed answers 400 already processed.
    In both cases the user collection and the request collection are left
    as they were, so no grant is made; in particular, right after a
    successful approval a second approval of the same request is refused
    as already processed and changes neither collection. *)
Theorem approve_guards now now' id users reqs :
  (findById id reqs = None →
     approve now now' id (users, reqs) = (NotFound, (users, reqs))) ∧
  (∀ r, findById id reqs = Some r → status r = processed →
     approve now now' id (users, reqs) = (AlreadyProcessed, (users, reqs))) ∧
  (∀ db', approve now now' id (users, reqs) = (OkReply, db') →
     ∀ t t', approve t t' id db' = (AlreadyProcessed, db')).
Proof.
  split; [|split].
  - intros Hnone. unfold approve. by rewrite Hnone.
  - intros r Hr Hst. unfold approve. rewrite Hr.
    by rewrite bool_decide_eq_true_2.
  - intros db'. unfold approve at 1.
    destruct (findById id reqs) as [r|] eqn:Hr; [|done].
    destruct (bool_decide (status r = processed)); [done|].
    destruct (users !! user r); [|done].
    intros [= <-] t t'. unfold approve.
    apply findById_Some in Hr as Hid. destruct Hid as [_ <-].
    match goal with |- context [save ?d reqs] => set (doc := d) end.
    change (_id r) with (_id doc) in Hr |- *.
    by rewrite (findById_save doc reqs r Hr).
Qed.

(** *** The theorems above at a concrete collection *)

(** Request 1, of user 7 for the basic plan, is pending. *)
Lemma pending_request_absorbed_witness :
  let reqs0 := [mkRequest 1%N 7%N basic pending None "please"] in
  subscribe_request 2%N 7%N "basic" None reqs0 = (AlreadyPending 1%N, reqs0).
Proof.
  intros reqs0.
  destruct (pending_request_absorbed 2%N 7%N "basic" basic None reqs0)
    as (_ & Hsame & _).
  - reflexivity.
  - intros userId p. unfold reqs0.
    destruct (decide (pending_for userId p
                        (mkRequest 1%N 7%N basic pending None "please") = true)).
    + rewrite filter_cons_True by done. simpl. lia.
    + rewrite filter_cons_False by done. simpl. lia.
  - apply (Hsame (mkRequest 1%N 7%N basic pending None "please")).
    + apply list_elem_of_singleton. reflexivity.
    + reflexivity.
Defined.

(** Request 1 is processed, request 2 is not stored. *)
Lemma approve_guards_witness :
  let users0 : Users :=
    {[7%N := mkUser plan_none status_none None None None [] []]} in
  let reqs0 := [mkRequest 1%N 7%N premium processed (Some 5) "please"] in
  approve 10 11 1%N (users0, reqs0) = (AlreadyProcessed, (users0, reqs0)) ∧
  approve 10 11 2%N (users0, reqs0) = (NotFound, (users0, reqs0)).
Proof.
  intros users0 reqs0.
  destruct (approve_guards 10 11 1%N users0 reqs0) as (_ & Hdone & _).
  destruct (approve_guards 10 11 2%N users0 reqs0) as (Hmissing & _ & _).
  split.
  - apply (Hdone (mkRequest 1%N 7%N premium processed (Some 5) "please"));
      reflexivity.
  - apply Hmissing. reflexivity.
Defined.

End request_facts.

(** * Further properties *)

(** ** Range of the score, and the duplicate check at upload *)

Section score_facts.

Implicit Types (a b : jsstring).

(** A quotient of integers with a positive denominator, as a fraction. *)
Lemma Qdiv_inject_Z (n d : Z) :
  (0 < d)%Z → (inject_Z n / inject_Z d == n # Z.to_pos d)%Q.
Proof.
  intros Hd. destruct d as [|d|d]; try lia.
  rewrite Qmake_Qdiv. simpl. reflexivity.
Qed.

(** The loop finds no more matches than either array has entries. *)
Lemma intersect_le (pairs1 pairs2 : list jsstring) :
  (intersect pairs1 pairs2 0).1 ≤ length pairs1 ∧
  (intersect pairs1 pairs2 0).1 ≤ length pairs2.
Proof.
  pose proof (intersect_length pairs1 pairs2).
  pose proof (intersect_length pairs2 pairs1) as H'.
  rewrite (intersect_comm pairs2 pairs1) in H'. lia.
Qed.

(** X1.  Whatever the two strings, the score is at least 0 and at most
    2. *)
Theorem calculateSimilarity_range a b :
  (0 <= calculateSimilarity a b <= 2)%Q.
Proof.
  destruct (decide (a = b)) as [->|Hab].
  { unfold calculateSimilarity. rewrite decide_True by done. done. }
  destruct (decide (length a < 2 ∨ length b < 2)) as [Hshort|Hlong].
  { unfold calculateSimilarity. rewrite decide_False by done.
    rewrite decide_True by done. done. }
  rewrite calculateSimilarity_formula by (done || lia). simpl.
  destruct (intersect_le (pairs_of a) (pairs_of b)) as [Ha Hb].
  rewrite !length_pairs_of in *.
  set (i := (intersect (pairs_of a) (pairs_of b) 0).1) in *.
  rewrite Qdiv_inject_Z by lia.
  unfold Qle. simpl. rewrite Z2Pos.id by lia. lia.
Qed.

(** X2.  For two different strings of at least two characters each, the
    score is 0 exactly when they have no bigram in common. *)
Theorem calculateSimilarity_zero a b :
  a ≠ b → 2 ≤ length a → 2 ≤ length b →
  (calculateSimilarity a b == 0)%Q ↔ ∀ p, p ∈ pairs_of a → p ∉ pairs_of b.
Proof.
  intros Hab Ha Hb.
  rewrite calculateSimilarity_formula by done. simpl.
  destruct (intersect_le (pairs_of a) (pairs_of b)) as [Hia Hib].
  rewrite !length_pairs_of in *.
  rewrite (proj1 (intersect_bag (pairs_of a) (pairs_of b) 0)) in *.
  simpl in *.
  set (X := bag (pairs_of a) ∩ bag (pairs_of b)) in *.
  rewrite Qdiv_inject_Z by lia.
  unfold Qeq. simpl. rewrite Z.mul_1_r.
  assert (size X = 0 ↔ ∀ p, p ∈ pairs_of a → p ∉ pairs_of b) as <-.
  { rewrite gmultiset_size_empty_iff. unfold X, bag. split.
    - intros HX p Hp1 Hp2.
      assert (p ∈ (list_to_set_disj (pairs_of a) ∩
                   list_to_set_disj (pairs_of b) : gmultiset jsstring)) as Hin.
      { apply gmultiset_elem_of_intersection.
        by rewrite !elem_of_list_to_set_disj. }
      rewrite HX in Hin. by apply gmultiset_not_elem_of_empty in Hin.
    - intros Hdisj. apply gmultiset_eq. intros p.
      rewrite multiplicity_empty.
      destruct (decide (p ∈ pairs_of a)) as [Hp|Hp].
      + specialize (Hdisj p Hp).
        rewrite <- elem_of_list_to_set_disj in Hdisj.
        apply not_elem_of_multiplicity in Hdisj.
        rewrite multiplicity_intersection, Hdisj. lia.
      + rewrite <- elem_of_list_to_set_disj in Hp.
        apply not_elem_of_multiplicity in Hp.
        rewrite multiplicity_intersection, Hp. lia. }
  lia.
Qed.

Lemma calculateSimilarity_zero_witness :
  (calculateSimilarity (lit "cat") (lit "dog") == 0)%Q.
Proof.
  apply (calculateSimilarity_zero (lit "cat") (lit "dog")).
  - discriminate.
  - simpl. lia.
  - simpl. lia.
  - intros p Hp Hq. vm_compute in Hp, Hq.
    apply list_elem_of_In in Hp, Hq. simpl in Hp, Hq.
    destruct Hp as [<-|[<-|[]]]; destruct Hq as [Hq|[Hq|[]]];
      discriminate Hq.
Defined.

End score_facts.

Section duplicate_facts.

Variable toLowerCase : jsstring → jsstring.

Implicit Types (candidate : jsstring) (book : Book).
Implicit Types (existingBooks : list Book).

Lemma above_threshold_spec (q : Q) :
  above_threshold q = true ↔ (8 # 10 < q)%Q.
Proof.
  unfold above_threshold. rewrite negb_true_iff.
  rewrite <- not_true_iff_false, Qle_bool_iff. split.
  - apply Qnot_le_lt.
  - apply Qlt_not_le.
Qed.

Lemma elem_of_duplicates candidate existingBooks book :
  book ∈ duplicates toLowerCase candidate existingBooks ↔
  book ∈ existingBooks ∧
  above_threshold
    (calculateSimilarity (toLowerCase candidate) (toLowerCase (title book)))
  = true.
Proof.
  unfold duplicates. rewrite !list_elem_of_In. apply filter_In.
Qed.

(** X3.  A stored book whose title is the candidate title up to case is
    always reported as a duplicate. *)
Theorem duplicates_same_title candidate existingBooks book :
  book ∈ existingBooks →
  toLowerCase (title book) = toLowerCase candidate →
  book ∈ duplicates toLowerCase candidate existingBooks.
Proof.
  intros Hin Heq. apply elem_of_duplicates. split; [done|].
  rewrite Heq. unfold calculateSimilarity. by rewrite decide_True.
Qed.

(** X4.  When the candidate title, in lower case, has fewer than two
    characters, the books reported are exactly the stored books with that
    same title up to case. *)
Theorem duplicates_short_title candidate existingBooks book :
  length (toLowerCase candidate) < 2 →
  book ∈ duplicates toLowerCase candidate existingBooks ↔
  book ∈ existingBooks ∧ toLowerCase (title book) = toLowerCase candidate.
Proof.
  intros Hshort. rewrite elem_of_duplicates. unfold calculateSimilarity.
  destruct (decide (toLowerCase candidate = toLowerCase (title book)))
    as [Heq|Hne].
  - split; intros [? _]; done.
  - rewrite decide_True by (by left). split; intros [? H]; [done|].
    by symmetry in H.
Qed.

(** X5.  For two titles that differ in lower case and have at least two
    characters each, the book is reported exactly when seven times the
    number of matched bigrams exceeds twice the total number of bigrams of
    the two titles. *)
Theorem duplicates_threshold candidate existingBooks book :
  let a := toLowerCase candidate in
  let b := toLowerCase (title book) in
  a ≠ b → 2 ≤ length a → 2 ≤ length b →
  book ∈ duplicates toLowerCase candidate existingBooks ↔
  book ∈ existingBooks ∧
  2 * (length a - 1 + (length b - 1))
  < 7 * (intersect (pairs_of a) (pairs_of b) 0).1.
Proof.
  intros a b Hab Ha Hb. rewrite elem_of_duplicates. fold a b.
  rewrite above_threshold_spec.
  rewrite calculateSimilarity_formula by done. simpl.
  destruct (intersect_le (pairs_of a) (pairs_of b)) as [Hia Hib].
  rewrite !length_pairs_of in *.
  set (i := (intersect (pairs_of a) (pairs_of b) 0).1) in *.
  rewrite Qdiv_inject_Z by lia.
  unfold Qlt. simpl. rewrite Z2Pos.id by lia.
  split; intros [? H]; (split; [done|lia]).
Qed.

End duplicate_facts.

(** ASCII lower case, for the examples. *)
Lemma duplicates_same_title_witness :
  let lower : jsstring → jsstring :=
    fmap (λ c : N, if bool_decide (65 ≤ c ≤ 90)%N then (c + 32)%N else c) in
  mkBook (lit "Dune") ∈ duplicates lower (lit "DUNE")
                          [mkBook (lit "Emma"); mkBook (lit "Dune")].
Proof.
  intros lower.
  apply (duplicates_same_title lower (lit "DUNE")
           [mkBook (lit "Emma"); mkBook (lit "Dune")] (mkBook (lit "Dune"))).
  - apply list_elem_of_In. simpl. tauto.
  - reflexivity.
Defined.

Lemma duplicates_short_title_witness :
  mkBook (lit "Q") ∈ duplicates (λ s, s) (lit "Q")
                       [mkBook (lit "Q"); mkBook (lit "QQ")].
Proof.
  apply (duplicates_short_title (λ s, s) (lit "Q")
           [mkBook (lit "Q"); mkBook (lit "QQ")] (mkBook (lit "Q"))).
  - simpl. lia.
  - split; [|reflexivity]. apply list_elem_of_In. simpl. tauto.
Defined.

Lemma duplicates_threshold_witness :
  mkBook (lit "the hobbit") ∈ duplicates (λ s, s) (lit "the hobbits")
                                [mkBook (lit "the hobbit")].
Proof.
  apply (duplicates_threshold (λ s, s) (lit "the hobbits")
           [mkBook (lit "the hobbit")] (mkBook (lit "the hobbit"))).
  - discriminate.
  - simpl. lia.
  - simpl. lia.
  - split; [apply list_elem_of_In; simpl; tauto|].
    vm_compute. lia.
Defined.

(** ** The gate: what a call stores *)

Section gate_store_facts.

Local Open Scope Z_scope.

Implicit Types (users : Users) (user : User) (a : Action).
Implicit Types (userId bookId : ObjectId) (now e s : Date) (type : string).

Lemma reset_cases now user :
  resetPeriodIfNeeded now user = user ∨
  resetPeriodIfNeeded now user = cleared now user.
Proof.
  unfold resetPeriodIfNeeded.
  destruct (period_over _ now); [by right | by left].
Qed.

Lemma reset_reset now user :
  resetPeriodIfNeeded now (resetPeriodIfNeeded now user)
  = resetPeriodIfNeeded now user.
Proof.
  destruct (period_over (anchor user) now) eqn:E.
  - apply period_over_due in E as Hd. rewrite (reset_when_due _ _ Hd).
    apply reset_when_not_due, cleared_not_due.
  - assert (¬ due now user) as Hd.
    { intros Hd%period_over_due. congruence. }
    rewrite (reset_when_not_due _ _ Hd). by apply reset_when_not_due.
Qed.

Lemma reset_not_due now user : ¬ due now (resetPeriodIfNeeded now user).
Proof.
  destruct (period_over (anchor user) now) eqn:E.
  - apply period_over_due in E as Hd. rewrite (reset_when_due _ _ Hd).
    apply cleared_not_due.
  - assert (¬ due now user) as Hd.
    { intros Hd%period_over_due. congruence. }
    by rewrite (reset_when_not_due _ _ Hd).
Qed.

Lemma due_push now a bookId user :
  due now (push a bookId user) ↔ due now user.
Proof. by destruct a. Qed.

Lemma inactive_reset now now' user :
  inactive now (resetPeriodIfNeeded now' user) = inactive now user.
Proof. by destruct (reset_cases now' user) as [->| ->]. Qed.

Lemma inactive_push now a bookId user :
  inactive now (push a bookId user) = inactive now user.
Proof. by destruct a. Qed.

Lemma plan_reset now user :
  subscription_plan (resetPeriodIfNeeded now user) = subscription_plan user.
Proof. by destruct (reset_cases now user) as [->| ->]. Qed.

Lemma no_plan_limits plan :
  bool_decide (maxReads (getPlanLimits plan) = 0%nat)
  && bool_decide (maxDownloads (getPlanLimits plan) = 0%nat) = true
  ↔ plan = plan_none.
Proof. destruct plan; simpl; split; done. Qed.

(** The gate either hands the collection back as it found it, with a
    refusal, or answers [Ok] and stores one document for the user. *)
Lemma gate_cases now now' userId bookId type users :
  (∃ message,
     ensureActiveAndWithinLimits now now' userId bookId type users
     = (Refused message, users)) ∨
  (∃ user user',
     users !! userId = Some user ∧ inactive now user = false ∧
     subscription_plan user ≠ plan_none ∧
     stored_after now' bookId type user user' ∧
     ensureActiveAndWithinLimits now now' userId bookId type users
     = (Ok, <[userId := user']> users)).
Proof.
  unfold ensureActiveAndWithinLimits.
  destruct (users !! userId) as [user|] eqn:Hu; [|left; by eexists].
  destruct (inactive now user) eqn:Hi; [left; by eexists|].
  set (user1 := resetPeriodIfNeeded now' user).
  destruct (bool_decide _ && bool_decide _) eqn:Hl; [left; by eexists|].
  assert (subscription_plan user ≠ plan_none) as Hplan.
  { intros Hp. rewrite <- (plan_reset now' user) in Hp. fold user1 in Hp.
    apply no_plan_limits in Hp. congruence. }
  destruct (decide (type = "read")) as [->|Hr];
    [|rewrite (bool_decide_eq_false_2 _ Hr);
      destruct (decide (type = "download")) as [->|Hd];
      [|rewrite (bool_decide_eq_false_2 _ Hd)]].
  - destruct (some_equals bookId (read_books_in_period user1)) eqn:Hs; simpl.
    + right. exists user, user1. repeat split; try done.
      left. exists Read. split; [done|]. left.
      split; [by apply some_equals_true|done].
    + destruct (bool_decide (_ ≤ _)%nat) eqn:Hlen; [left; by eexists|].
      apply bool_decide_eq_false in Hlen.
      right. exists user, (push_read bookId user1). repeat split; try done.
      left. exists Read. split; [done|]. right.
      split; [by apply some_equals_false|].
      split; [unfold usage, limit; fold user1; lia|done].
  - destruct (some_equals bookId (downloaded_books_in_period user1)) eqn:Hs;
      simpl.
    + right. exists user, user1. repeat split; try done.
      left. exists Download. split; [done|]. left.
      split; [by apply some_equals_true|done].
    + destruct (bool_decide (_ ≤ _)%nat) eqn:Hlen; [left; by eexists|].
      apply bool_decide_eq_false in Hlen.
      right. exists user, (push_downloaded bookId user1).
      repeat split; try done.
      left. exists Download. split; [done|]. right.
      split; [by apply some_equals_false|].
      split; [unfold usage, limit; fold user1; lia|done].
  - right. exists user, user1. repeat split; try done. by right.
Qed.

Lemma gate_lookup now now' userId bookId type users user :
  users !! userId = Some user →
  ∃ user', (ensureActiveAndWithinLimits now now' userId bookId type users).2
           !! userId = Some user' ∧
           (user' = user ∨ stored_after now' bookId type user user').
Proof.
  intros Hu.
  destruct (gate_cases now now' userId bookId type users)
    as [[m ->]|(u & u' & Hu' & _ & _ & Hst & ->)]; simpl.
  - exists user. split; [done | by left].
  - exists u'. rewrite lookup_insert_eq. split; [done|].
    right. congruence.
Qed.

(** X6.  A call of the gate changes no other user's document, and neither
    adds nor removes a user. *)
Theorem gate_touches_one_user now now' userId bookId type users :
  let users' :=
    (ensureActiveAndWithinLimits now now' userId bookId type users).2 in
  dom users' = dom users ∧
  ∀ other, other ≠ userId → users' !! other = users !! other.
Proof.
  destruct (gate_cases now now' userId bookId type users)
    as [[m ->]|(u & u' & Hu & _ & _ & _ & ->)]; simpl; [done|].
  split.
  - rewrite dom_insert_L. apply elem_of_dom_2 in Hu.
    apply subseteq_union_1_L. by apply singleton_subseteq_l.
  - intros other Hne. by rewrite lookup_insert_ne.
Qed.

Lemma stored_after_subscription now' bookId type user user' :
  stored_after now' bookId type user user' →
  subscription_plan user' = subscription_plan user ∧
  subscription_status user' = subscription_status user ∧
  subscription_start user' = subscription_start user ∧
  subscription_end user' = subscription_end user.
Proof.
  intros [(a & _ & [[_ ->]|(_ & _ & ->)])|(_ & _ & ->)];
    destruct (reset_cases now' user) as [->| ->]; try destruct a; done.
Qed.

(** X7.  Whatever the gate answers, the plan, the status, the start and
    the end of the subscription of the stored user are as before: the
    gate only ever writes the usage period. *)
Theorem gate_keeps_subscription now now' userId bookId type users user user' :
  users !! userId = Some user →
  (ensureActiveAndWithinLimits now now' userId bookId type users).2 !! userId
  = Some user' →
  subscription_plan user' = subscription_plan user ∧
  subscription_status user' = subscription_status user ∧
  subscription_start user' = subscription_start user ∧
  subscription_end user' = subscription_end user.
Proof.
  intros Hu Hu'.
  destruct (gate_lookup now now' userId bookId type users user Hu)
    as (u' & Hl & [->|Hst]); rewrite Hl in Hu'; injection Hu' as <-.
  - done.
  - by apply (stored_after_subscription now' bookId type).
Qed.

Lemma stored_after_NoDup now' bookId type user user' :
  stored_after now' bookId type user user' →
  NoDup (read_books_in_period user) →
  NoDup (downloaded_books_in_period user) →
  NoDup (read_books_in_period user') ∧
  NoDup (downloaded_books_in_period user').
Proof.
  intros Hst Hr Hd.
  assert (NoDup (read_books_in_period (resetPeriodIfNeeded now' user)) ∧
          NoDup (downloaded_books_in_period (resetPeriodIfNeeded now' user)))
    as [Hr1 Hd1].
  { destruct (reset_cases now' user) as [->| ->]; [done|].
    simpl. split; apply NoDup_nil_2. }
  destruct Hst as [(a & _ & [[_ ->]|(Hnew & _ & ->)])|(_ & _ & ->)];
    try done.
  assert (∀ l : list ObjectId, NoDup l → bookId ∉ l → NoDup (l ++ [bookId]))
    as Hpush.
  { intros l Hl Hnin. apply list.NoDup_app. split; [done|].
    split; [|apply NoDup_singleton].
    intros x Hx ->%list_elem_of_singleton. done. }
  destruct a; simpl in *.
  - split; [by apply Hpush | done].
  - split; [done | by apply Hpush].
Qed.

(** X8.  The gate never records a book twice: usage arrays without
    repetition stay without repetition. *)
Theorem gate_keeps_NoDup now now' userId bookId type users user user' :
  users !! userId = Some user →
  NoDup (read_books_in_period user) →
  NoDup (downloaded_books_in_period user) →
  (ensureActiveAndWithinLimits now now' userId bookId type users).2 !! userId
  = Some user' →
  NoDup (read_books_in_period user') ∧
  NoDup (downloaded_books_in_period user').
Proof.
  intros Hu Hr Hd Hu'.
  destruct (gate_lookup now now' userId bookId type users user Hu)
    as (u' & Hl & [->|Hst]); rewrite Hl in Hu'; injection Hu' as <-.
  - done.
  - by apply (stored_after_NoDup now' bookId type user).
Qed.

Lemma action_name_inj a a' : action_name a = action_name a' → a = a'.
Proof. by destruct a, a'. Qed.

Lemma action_name_other a type :
  type ≠ "read" → type ≠ "download" → type ≠ action_name a.
Proof. intros ?? ->. by destruct a. Qed.

(** X9.  When a read or a download is let through, the book is in the
    stored usage array of that action afterwards. *)
Theorem gate_Ok_records now now' userId bookId a users users' :
  ensureActiveAndWithinLimits now now' userId bookId (action_name a) users
  = (Ok, users') →
  ∃ user', users' !! userId = Some user' ∧ bookId ∈ usage a user'.
Proof.
  intros Hg.
  destruct (gate_cases now now' userId bookId (action_name a) users)
    as [[m Hm]|(u & u' & Hu & _ & _ & Hst & Hok)]; [congruence|].
  rewrite Hok in Hg. injection Hg as <-.
  exists u'. rewrite lookup_insert_eq. split; [done|].
  destruct Hst as [(a' & Ha & Hcase)|(Hr & Hd & _)].
  - apply action_name_inj in Ha as <-.
    destruct Hcase as [[Hin ->]|(_ & _ & ->)]; [done|].
    destruct a; simpl; apply elem_of_app; right;
      by apply list_elem_of_singleton.
  - by destruct a.
Qed.

(** X10.  A call that was let through can be repeated at the same clock
    readings: it is let through again and stores nothing new. *)
Theorem gate_Ok_again now now' userId bookId type users users' :
  ensureActiveAndWithinLimits now now' userId bookId type users
  = (Ok, users') →
  ensureActiveAndWithinLimits now now' userId bookId type users'
  = (Ok, users').
Proof.
  intros Hg.
  destruct (gate_cases now now' userId bookId type users)
    as [[m Hm]|(u & u' & Hu & Hi & Hp & Hst & Hok)]; [congruence|].
  rewrite Hok in Hg. injection Hg as <-.
  pose proof (stored_after_subscription _ _ _ _ _ Hst) as (Hp' & _).
  assert (resetPeriodIfNeeded now' u' = u') as Hreset.
  { apply reset_when_not_due.
    destruct Hst as [(a & _ & [[_ ->]|(_ & _ & ->)])|(_ & _ & ->)].
    - apply reset_not_due.
    - rewrite due_push. apply reset_not_due.
    - apply reset_not_due. }
  assert (inactive now u' = false) as Hi'.
  { destruct Hst as [(a & _ & [[_ ->]|(_ & _ & ->)])|(_ & _ & ->)];
      rewrite ?inactive_push, inactive_reset; done. }
  unfold ensureActiveAndWithinLimits.
  rewrite lookup_insert_eq, Hi', Hreset.
  destruct (bool_decide _ && bool_decide _) eqn:Hl.
  { apply no_plan_limits in Hl. congruence. }
  destruct Hst as [(a & -> & Hcase)|(Hr & Hd & ->)].
  - assert (bookId ∈ usage a u') as Hin.
    { destruct Hcase as [[Hin ->]|(_ & _ & ->)]; [done|].
      destruct a; simpl; apply elem_of_app; right;
        by apply list_elem_of_singleton. }
    apply some_equals_true in Hin.
    destruct a; simpl in *; rewrite Hin; simpl; by rewrite insert_insert_eq.
  - rewrite !bool_decide_eq_false_2 by done. by rewrite insert_insert_eq.
Qed.

(** X11.  A [type] that is neither read nor download is let through for
    every active subscriber with a plan whose subscription has not ended,
    whatever the usage: the document stored is the loaded one after the
    period reset, no book is recorded and no quota is tested. *)
Theorem gate_other_type now now' userId bookId type users user e :
  type ≠ "read" → type ≠ "download" →
  users !! userId = Some user →
  subscription_status user = active →
  subscription_plan user ≠ plan_none →
  subscription_end user = Some e → now ≤ e →
  ensureActiveAndWithinLimits now now' userId bookId type users
  = (Ok, <[userId := resetPeriodIfNeeded now' user]> users).
Proof.
  intros Hr Hd Hu Hs Hp He Hle. unfold ensureActiveAndWithinLimits.
  rewrite Hu, (inactive_false _ _ e) by done.
  destruct (bool_decide _ && bool_decide _) eqn:Hl.
  { apply no_plan_limits in Hl. by rewrite plan_reset in Hl. }
  by rewrite !bool_decide_eq_false_2.
Qed.

Lemma stored_after_quota now' bookId type user user' :
  stored_after now' bookId type user user' →
  (length (read_books_in_period user)
   ≤ maxReads (getPlanLimits (subscription_plan user)))%nat →
  (length (downloaded_books_in_period user)
   ≤ maxDownloads (getPlanLimits (subscription_plan user)))%nat →
  (length (read_books_in_period user')
   ≤ maxReads (getPlanLimits (subscription_plan user')))%nat ∧
  (length (downloaded_books_in_period user')
   ≤ maxDownloads (getPlanLimits (subscription_plan user')))%nat.
Proof.
  intros Hst Hr Hd.
  set (user1 := resetPeriodIfNeeded now' user) in *.
  assert ((length (read_books_in_period user1)
           ≤ maxReads (getPlanLimits (subscription_plan user1)))%nat ∧
          (length (downloaded_books_in_period user1)
           ≤ maxDownloads (getPlanLimits (subscription_plan user1)))%nat)
    as [Hr1 Hd1].
  { unfold user1. destruct (reset_cases now' user) as [->| ->]; [done|].
    simpl. lia. }
  destruct Hst as [(a & _ & [[_ ->]|(_ & Hlen & ->)])|(_ & _ & ->)];
    try done.
  fold user1 in Hlen |- *.
  destruct a; unfold usage, limit in Hlen; simpl;
    rewrite length_app; simpl; lia.
Qed.

(** X12.  The quota is never overrun: if the usage arrays of every active
    user are within the limits of the user's plan, they still are after a
    call of the gate, whatever its arguments. *)
Theorem gate_keeps_quota now now' userId bookId type users :
  active_within_quota users →
  active_within_quota
    (ensureActiveAndWithinLimits now now' userId bookId type users).2.
Proof.
  intros Hq.
  destruct (gate_cases now now' userId bookId type users)
    as [[m ->]|(u & u' & Hu & _ & _ & Hst & ->)]; simpl; [done|].
  intros other user Hl Hact.
  destruct (decide (other = userId)) as [->|Hne].
  - rewrite lookup_insert_eq in Hl. injection Hl as <-.
    pose proof (stored_after_subscription _ _ _ _ _ Hst) as (_ & Hs & _).
    rewrite Hs in Hact. destruct (Hq userId u Hu Hact) as [Hr Hd].
    by apply (stored_after_quota now' bookId type u).
  - rewrite lookup_insert_ne in Hl by done. by apply (Hq other).
Qed.

End gate_store_facts.

(** ** The quota of every plan, for reads and for downloads *)

Section quota_facts.

Local Open Scope Z_scope.

Implicit Types (users : Users) (user : User) (a : Action) (plan : Plan).
Implicit Types (userId bookId : ObjectId) (now e s : Date).

(** A request of a subscriber whose subscription and usage period are in
    force comes down to the quota test of the action. *)
Lemma gate_in_force a plan users userId user bookId e s t :
  users !! userId = Some user → subscriber plan e s user →
  plan ≠ plan_none → in_force e s t →
  ensureActiveAndWithinLimits t.1 t.2 userId bookId (action_name a) users
  = if some_equals bookId (usage a user)
    then (Ok, <[userId := user]> users)
    else if bool_decide (limit a plan ≤ length (usage a user))%nat
         then (limit_reached a, users)
         else (Ok, <[userId := push a bookId user]> users).
Proof.
  intros Hu (Hs & Hp & He & Ha) Hplan [Ht1 Ht2].
  unfold ensureActiveAndWithinLimits.
  rewrite Hu, (inactive_false _ _ e) by done.
  rewrite (reset_current _ _ s) by done.
  rewrite Hp.
  destruct plan; [done| |]; destruct a; simpl;
    by destruct (some_equals bookId _).
Qed.

Lemma subscriber_push a plan e s bookId user :
  subscriber plan e s user → subscriber plan e s (push a bookId user).
Proof. intros (? & ? & ? & ?). by destruct a. Qed.

Lemma subscriber_with_usage a plan e s ids user :
  subscriber plan e s user → subscriber plan e s (with_usage a ids user).
Proof. intros (? & ? & ? & ?). by destruct a. Qed.

Lemma usage_push a bookId user :
  usage a (push a bookId user) = usage a user ++ [bookId].
Proof. by destruct a. Qed.

Lemma usage_with_usage a ids user : usage a (with_usage a ids user) = ids.
Proof. by destruct a. Qed.

Lemma with_usage_push a ids bookId user :
  with_usage a ids (push a bookId user) = with_usage a ids user.
Proof. by destruct a. Qed.

Lemma with_usage_same a user : with_usage a (usage a user) user = user.
Proof. by destruct a, user. Qed.

(** Requests for distinct new books, as long as the limit is not exceeded,
    are all let through and are appended to the usage array. *)
Lemma requests_within_quota a plan userId e s (ids : list ObjectId) :
  plan ≠ plan_none →
  ∀ (clock : list (Date * Date)) users user,
  users !! userId = Some user → subscriber plan e s user →
  NoDup (usage a user ++ ids) →
  (length (usage a user) + length ids ≤ limit a plan)%nat →
  length clock = length ids → Forall (in_force e s) clock →
  requests userId (action_name a) (zip ids clock) users
  = (replicate (length ids) Ok,
     <[userId := with_usage a (usage a user ++ ids) user]> users).
Proof.
  intros Hplan.
  induction ids as [|id ids IH]; intros clock users user Hu Hsub Hnd Hlen Hc Hf.
  - simpl. rewrite app_nil_r, with_usage_same. by rewrite insert_id.
  - destruct clock as [|t clock]; [done|]. simpl in Hc, Hlen.
    inversion_clear Hf as [|?? Ht Hf']. destruct t as [now now'].
    cbn [zip_with requests].
    pose proof (gate_in_force a plan users userId user id e s (now, now')
                  Hu Hsub Hplan Ht) as Hstep. simpl in Hstep. rewrite Hstep.
    assert (id ∉ usage a user) as Hnew.
    { apply list.NoDup_app in Hnd as (_ & Hdisj & _). intros Hin.
      apply (Hdisj id Hin). by left. }
    apply some_equals_false in Hnew. rewrite Hnew.
    rewrite bool_decide_eq_false_2 by lia.
    rewrite (IH clock _ (push a id user)).
    + rewrite insert_insert_eq, with_usage_push, usage_push.
      by rewrite <- (assoc_L (++)).
    + by rewrite lookup_insert_eq.
    + by apply subscriber_push.
    + rewrite usage_push. by rewrite <- (assoc_L (++)).
    + rewrite usage_push, length_app. simpl. lia.
    + lia.
    + done.
Qed.

(** X13.  Quota boundary, for every plan and both actions.  For an active
    subscriber to the basic or the premium plan whose subscription and
    usage period are in force at every call and who has not used the
    action in this period: as many requests for distinct books as the
    plan allows for the action are each let through and leave exactly
    those ids in the usage array; after that, a request for any other
    book is refused with the limit message of the action, and a request
    for any of the recorded books is let through and changes nothing. *)
Theorem quota_boundary a plan users userId user e s
    (ids : list ObjectId) (clock : list (Date * Date)) :
  plan ≠ plan_none →
  users !! userId = Some user →
  subscriber plan e s user →
  usage a user = [] →
  NoDup ids → length ids = limit a plan →
  length clock = length ids → Forall (in_force e s) clock →
  let users' := <[userId := with_usage a ids user]> users in
  requests userId (action_name a) (zip ids clock) users
  = (replicate (length ids) Ok, users') ∧
  ∀ t bookId, in_force e s t →
    ensureActiveAndWithinLimits t.1 t.2 userId bookId (action_name a) users'
    = (if bool_decide (bookId ∈ ids) then Ok else limit_reached a, users').
Proof.
  intros Hplan Hu Hsub Hempty Hnd Hlen Hc Hf users'.
  assert (users' !! userId = Some (with_usage a ids user)) as Hu'
    by apply lookup_insert_eq.
  pose proof (subscriber_with_usage a plan e s ids user Hsub) as Hsub'.
  split.
  - rewrite (requests_within_quota a plan userId e s ids Hplan clock users
               user); rewrite ?Hempty; simpl; try done; lia.
  - intros t bookId Ht.
    rewrite (gate_in_force a plan _ _ _ _ e s t Hu' Hsub' Hplan Ht).
    rewrite usage_with_usage.
    destruct (decide (bookId ∈ ids)) as [Hin|Hin].
    + rewrite (bool_decide_eq_true_2 (bookId ∈ ids) Hin).
      apply some_equals_true in Hin. rewrite Hin.
      by rewrite (insert_id _ _ _ Hu').
    + rewrite (bool_decide_eq_false_2 (bookId ∈ ids) Hin).
      apply some_equals_false in Hin. rewrite Hin.
      by rewrite bool_decide_eq_true_2 by lia.
Qed.

(** X14.  The check of the reading-list routes agrees with the gate of the
    book routes: when it refuses, the gate refuses at the same instant
    with the same message and stores nothing; when it passes, the gate
    does not answer that the user is missing or the subscription
    inactive. *)
Theorem ensureActiveSubscription_agrees now now' userId bookId type users :
  match ensureActiveSubscription now userId users with
  | Refused message =>
      ensureActiveAndWithinLimits now now' userId bookId type users
      = (Refused message, users)
  | Ok =>
      (ensureActiveAndWithinLimits now now' userId bookId type users).1
      ≠ UserNotFound ∧
      (ensureActiveAndWithinLimits now now' userId bookId type users).1
      ≠ SubscriptionInactive
  end.
Proof.
  unfold ensureActiveSubscription, ensureActiveAndWithinLimits.
  destruct (users !! userId) as [user|]; [|done].
  fold (inactive now user).
  destruct (inactive now user); [done|].
  repeat case_match; simpl; split; discriminate.
Qed.

End quota_facts.

(** ** Grant, cancel, bulk update and the hourly job *)

Section admin_facts.

Local Open Scope Z_scope.

Implicit Types (users : Users) (user : User) (a : Action) (plan : Plan).
Implicit Types (id userId bookId : ObjectId) (now e s : Date).
Implicit Types (reqs : Requests) (r : SubscriptionRequest).

Lemma lookup_updateMany matches set users id :
  updateMany matches set users !! id
  = (λ user, if matches id user then set user else user) <$> users !! id.
Proof.
  unfold updateMany. rewrite map_lookup_imap.
  by destruct (users !! id).
Qed.

Lemma valid_plan_not_none body_plan plan :
  valid_plan body_plan = Some plan → plan ≠ plan_none.
Proof.
  unfold valid_plan. repeat case_bool_decide; intros [= <-]; done.
Qed.

(** What an access finds right after a grant at [now]. *)
Lemma access_after_grant a plan now users id bookId (t : Date * Date) :
  plan ≠ plan_none →
  users !! id
  = Some (mkUser plan active (Some now) (Some (now + thirty_days))
            (Some now) [] []) →
  t.1 ≤ now + thirty_days → t.2 - now ≤ thirty_days →
  ∃ user', ensureActiveAndWithinLimits t.1 t.2 id bookId (action_name a) users
           = (Ok, <[id := user']> users) ∧
           usage a user' = [bookId].
Proof.
  intros Hplan Hu Ht1 Ht2.
  set (user := mkUser plan active (Some now) (Some (now + thirty_days))
                 (Some now) [] []) in *.
  assert (subscriber plan (now + thirty_days) now user) as Hsub by done.
  assert (in_force (now + thirty_days) now t) as Hin by done.
  pose proof (gate_in_force a plan users id user bookId _ _ t Hu Hsub Hplan
                Hin) as Hg.
  exists (push a bookId user). split.
  - rewrite Hg. destruct a, plan; done.
  - by destruct a.
Qed.

(** X15.  The three ways to grant agree.  For a pending request of a
    stored user, approving it at [now] stores for that user exactly what
    the direct grant of the requested plan at [now] stores, and so does
    the bulk grant to that one user. *)
Theorem grant_paths_agree now now' users reqs id r body_plan :
  findById id reqs = Some r → status r = pending →
  valid_plan body_plan = Some (plan r) →
  is_Some (users !! user r) →
  (approve now now' id (users, reqs)).2.1
  = (grant_subscription now (user r) body_plan users).2 ∧
  (bulk_subscription now [user r] "grant" body_plan users).2
  = (grant_subscription now (user r) body_plan users).2.
Proof.
  intros Hr Hst Hp [u Hu]. split.
  - unfold approve, grant_subscription. rewrite Hr, Hst, Hp, Hu. done.
  - unfold bulk_subscription, grant_subscription. rewrite Hp, Hu. simpl.
    apply map_eq. intros i. rewrite lookup_updateMany.
    destruct (decide (i = user r)) as [->|Hne].
    + rewrite lookup_insert_eq, Hu. simpl.
      rewrite bool_decide_eq_true_2; [done|].
      by apply list_elem_of_singleton.
    + rewrite lookup_insert_ne by done.
      destruct (users !! i); [|done]. simpl.
      rewrite bool_decide_eq_false_2; [done|].
      by intros ?%list_elem_of_singleton.
Qed.

(** X16.  Right after a direct grant, and for the thirty days that
    follow, a read or a download of any book by that user is let through
    and the book is the only entry of the usage array of the action. *)
Theorem grant_then_access a now id body_plan plan users bookId
    (t : Date * Date) :
  valid_plan body_plan = Some plan → is_Some (users !! id) →
  t.1 ≤ now + thirty_days → t.2 - now ≤ thirty_days →
  let users1 := (grant_subscription now id body_plan users).2 in
  ∃ user', ensureActiveAndWithinLimits t.1 t.2 id bookId (action_name a) users1
           = (Ok, <[id := user']> users1) ∧
           usage a user' = [bookId].
Proof.
  intros Hp [u Hu] Ht1 Ht2. unfold grant_subscription. rewrite Hp, Hu. simpl.
  apply (access_after_grant a plan now); try done.
  - by apply (valid_plan_not_none body_plan).
  - by rewrite lookup_insert_eq.
Qed.

(** X17.  The same after an approval: the user of the approved request
    can read or download any book for the thirty days that follow. *)
Theorem approve_then_access a now now' users reqs id r bookId
    (t : Date * Date) :
  findById id reqs = Some r → status r = pending →
  plan r ≠ plan_none → is_Some (users !! user r) →
  t.1 ≤ now + thirty_days → t.2 - now ≤ thirty_days →
  let users1 := (approve now now' id (users, reqs)).2.1 in
  ∃ user', ensureActiveAndWithinLimits t.1 t.2 (user r) bookId
             (action_name a) users1
           = (Ok, <[user r := user']> users1) ∧
           usage a user' = [bookId].
Proof.
  intros Hr Hst Hp [u Hu] Ht1 Ht2. unfold approve. rewrite Hr, Hst, Hu. simpl.
  apply (access_after_grant a (plan r) now); try done.
  by rewrite lookup_insert_eq.
Qed.

(** X18.  After a cancellation every access of that user is refused as
    inactive, at any time and for any book and action, and nothing is
    stored; the cancellation itself leaves the start of the subscription,
    the usage period and both usage arrays as they were. *)
Theorem cancel_then_refused now id users user t t' bookId type :
  users !! id = Some user →
  let users1 := (cancel_subscription now id users).2 in
  ensureActiveAndWithinLimits t t' id bookId type users1
  = (SubscriptionInactive, users1) ∧
  ∃ user1, users1 !! id = Some user1 ∧
    subscription_start user1 = subscription_start user ∧
    period_started_at user1 = period_started_at user ∧
    read_books_in_period user1 = read_books_in_period user ∧
    downloaded_books_in_period user1 = downloaded_books_in_period user.
Proof.
  intros Hu. unfold cancel_subscription. rewrite Hu. simpl. split.
  - unfold ensureActiveAndWithinLimits. by rewrite lookup_insert_eq.
  - eexists. rewrite lookup_insert_eq. repeat split; done.
Qed.

(** X19.  The bulk route acts on each listed user as the single route
    does at the same instant, leaves every other user alone, and reports
    the number of ids it was given, stored or not. *)
Theorem bulk_pointwise now ids body_plan plan users id :
  ids ≠ [] → valid_plan body_plan = Some plan →
  let cancelled := bulk_subscription now ids "cancel" body_plan users in
  let granted := bulk_subscription now ids "grant" body_plan users in
  cancelled.1 = BulkOk (length ids) ∧ granted.1 = BulkOk (length ids) ∧
  cancelled.2 !! id
  = (if bool_decide (id ∈ ids)
     then (cancel_subscription now id users).2 else users) !! id ∧
  granted.2 !! id
  = (if bool_decide (id ∈ ids)
     then (grant_subscription now id body_plan users).2 else users) !! id.
Proof.
  intros Hids Hp. unfold bulk_subscription, cancel_subscription,
    grant_subscription.
  rewrite bool_decide_eq_false_2 by done. rewrite Hp. simpl.
  split; [done|]. split; [done|].
  rewrite !lookup_updateMany.
  destruct (users !! id) as [u|] eqn:Hu; simpl;
    destruct (bool_decide (id ∈ ids)); simpl;
    rewrite ?lookup_insert_eq, ?Hu; done.
Qed.

Lemma lookup_expire_job now users id :
  expire_job now users !! id
  = (λ user,
       if bool_decide (subscription_status user = active)
          && match subscription_end user with
             | Some e => bool_decide (e < now)
             | None => false
             end
       then mkUser (subscription_plan user) expired (subscription_start user)
              (subscription_end user) (period_started_at user)
              (read_books_in_period user) (downloaded_books_in_period user)
       else user) <$> users !! id.
Proof. unfold expire_job. by rewrite lookup_updateMany. Qed.

(** X20.  After the hourly job no stored user is active with a
    subscription that ended before the time of the run; the job adds and
    removes no user and changes nothing but the status, which it leaves
    or sets to expired; and a second run at the same time changes
    nothing. *)
Theorem expire_job_spec now users :
  (∀ id user, expire_job now users !! id = Some user →
     subscription_status user = active →
     ∀ e, subscription_end user = Some e → now ≤ e) ∧
  dom (expire_job now users) = dom users ∧
  (∀ id user user', users !! id = Some user →
     expire_job now users !! id = Some user' →
     user' = user ∨
     user' = mkUser (subscription_plan user) expired
               (subscription_start user) (subscription_end user)
               (period_started_at user) (read_books_in_period user)
               (downloaded_books_in_period user)) ∧
  expire_job now (expire_job now users) = expire_job now users.
Proof.
  split; [|split; [|split]].
  - intros id user' Hl Hact e He. rewrite lookup_expire_job in Hl.
    destruct (users !! id) as [user|]; [|done]. simpl in Hl.
    destruct (bool_decide (subscription_status user = active)) eqn:Hs;
      simpl in Hl.
    + destruct (subscription_end user) as [e0|] eqn:He0.
      * destruct (bool_decide (e0 < now)) eqn:Hlt; injection Hl as <-.
        -- done.
        -- apply bool_decide_eq_false in Hlt. rewrite He0 in He.
           injection He as <-. lia.
      * injection Hl as <-. congruence.
    + injection Hl as <-. apply bool_decide_eq_false in Hs. done.
  - apply set_eq. intros id. rewrite !elem_of_dom, lookup_expire_job.
    by rewrite fmap_is_Some.
  - intros id user user' Hu Hl. rewrite lookup_expire_job, Hu in Hl.
    simpl in Hl. injection Hl as <-.
    destruct (_ && _); [by right | by left].
  - apply map_eq. intros id. rewrite !lookup_expire_job.
    destruct (users !! id) as [user|]; [|done]. simpl. f_equal.
    destruct (bool_decide (subscription_status user = active)
              && _) eqn:Hm; simpl; [done|].
    by rewrite Hm.
Qed.

Lemma gate_verdict_lookup now now' userId bookId type users users' :
  users !! userId = users' !! userId →
  (ensureActiveAndWithinLimits now now' userId bookId type users).1
  = (ensureActiveAndWithinLimits now now' userId bookId type users').1.
Proof.
  intros Hl. unfold ensureActiveAndWithinLimits. rewrite Hl.
  repeat case_match; done.
Qed.

(** X21.  The hourly job never changes what the gate answers afterwards:
    for every request made at or after the time of a run, the answer is
    the one the gate would have given had the job not run. *)
Theorem expire_job_gate t now now' userId bookId type users :
  t ≤ now →
  (ensureActiveAndWithinLimits now now' userId bookId type
     (expire_job t users)).1
  = (ensureActiveAndWithinLimits now now' userId bookId type users).1.
Proof.
  intros Ht.
  destruct (users !! userId) as [user|] eqn:Hu.
  - destruct (bool_decide (subscription_status user = active)
              && match subscription_end user with
                 | Some e => bool_decide (e < t)
                 | None => false
                 end) eqn:Hm.
    + apply andb_true_iff in Hm as [Hs He].
      destruct (subscription_end user) as [e|] eqn:Hend; [|done].
      apply bool_decide_eq_true in He.
      unfold ensureActiveAndWithinLimits.
      rewrite lookup_expire_job, Hu. simpl.
      rewrite Hs, Hend, (bool_decide_eq_true_2 (e < t)) by done. simpl.
      assert (inactive now user = true) as ->; [|done].
      unfold inactive. rewrite Hend.
      rewrite (bool_decide_eq_true_2 (e < now)) by lia.
      by rewrite orb_true_r.
    + apply gate_verdict_lookup.
      rewrite lookup_expire_job, Hu. simpl. by rewrite Hm.
  - apply gate_verdict_lookup. by rewrite lookup_expire_job, Hu.
Qed.




End admin_facts.

(** ** Dismissal, resubmission and the listing of requests *)

Section queue_facts.

Local Open Scope Z_scope.

Implicit Types (reqs items : Requests) (r doc : SubscriptionRequest).
Implicit Types (users : Users) (id userId : ObjectId) (p : Plan).
Implicit Types (seen : list (option ObjectId * Plan * ReqStatus)).

(** X23.  A stored request that is dismissed is processed for good: a
    second dismissal answers ok and changes nothing, a later approval is
    refused as already processed and grants nothing, and the collection
    still has at most one pending request per user and plan. *)
Theorem mark_processed_final now t t' id users reqs r :
  findById id reqs = Some r →
  let reqs1 := (mark_processed now id reqs).2 in
  mark_processed t id reqs1 = (OkReply, reqs1) ∧
  approve t t' id (users, reqs1) = (AlreadyProcessed, (users, reqs1)) ∧
  (one_pending reqs → one_pending reqs1).
Proof.
  intros Hr. unfold mark_processed at 1. rewrite Hr.
  destruct (bool_decide (status r = processed)) eqn:Hst; simpl.
  - apply bool_decide_eq_true in Hst. unfold mark_processed, approve.
    rewrite Hr, bool_decide_eq_true_2 by done. done.
  - apply findById_Some in Hr as Hid. destruct Hid as [_ <-].
    match goal with |- context [save ?d reqs] => set (doc := d) end.
    change (_id r) with (_id doc) in Hr |- *.
    pose proof (findById_save doc reqs r Hr) as Hdoc.
    unfold mark_processed, approve. rewrite Hdoc. simpl.
    split; [done|]. split; [done|].
    intros Hone userId p. specialize (Hone userId p).
    etrans; [by apply save_processed_pending|done].
Qed.

(** No pending request of the user for the plan is left once the only
    one has been processed. *)
Lemma findOne_after_save reqs r doc :
  one_pending reqs → r ∈ reqs → status r = pending →
  _id doc = _id r → status doc = processed →
  findOne (pending_for (user r) (plan r)) (save doc reqs) = None.
Proof.
  intros Hone Hin Hst Hid Hdoc.
  assert (pending_for (user r) (plan r) r = true) as Hr.
  { unfold pending_for. by rewrite !bool_decide_eq_true_2. }
  unfold findOne.
  destruct (find _ (save doc reqs)) as [r0|] eqn:E; [|done]. exfalso.
  apply find_some in E as [Hin0%list_elem_of_In Hr0].
  unfold save in Hin0. apply list_elem_of_fmap in Hin0 as (r1 & -> & Hin1).
  destruct (bool_decide (_id r1 = _id doc)) eqn:Hid1.
  - unfold pending_for in Hr0. rewrite Hdoc in Hr0. simpl in Hr0.
    by rewrite andb_false_r in Hr0.
  - apply bool_decide_eq_false in Hid1.
    pose proof (findOne_unique _ _ _ r Hone Hin Hr) as H1.
    pose proof (findOne_unique _ _ _ r1 Hone Hin1 Hr0) as H2.
    rewrite H1 in H2. injection H2 as ->. congruence.
Qed.

(** X24.  An approval frees the slot: when the collection has at most one
    pending request per user and plan, then after the pending request of
    a stored user has been approved, a new request of that user for the
    same plan is created, with the new id and the note trimmed, as a
    pending request at the end of the collection. *)
Theorem approve_then_subscribe now now' id new_id users reqs r body_plan
    body_note :
  one_pending reqs →
  findById id reqs = Some r → status r = pending →
  is_Some (users !! user r) →
  valid_plan body_plan = Some (plan r) →
  let reqs1 := (approve now now' id (users, reqs)).2.2 in
  subscribe_request new_id (user r) body_plan body_note reqs1
  = (Created new_id,
     reqs1 ++ [mkRequest new_id (user r) (plan r) pending None
                 (trim (default EmptyString body_note))]).
Proof.
  intros Hone Hr Hst [u Hu] Hp. unfold approve. rewrite Hr, Hst, Hu. simpl.
  unfold subscribe_request. rewrite Hp.
  apply findById_Some in Hr as [Hin Hid].
  match goal with |- context [save ?d reqs] => set (doc := d) end.
  by rewrite (findOne_after_save reqs r doc).
Qed.

(** The loop of the listing. *)
Lemma unique_from_spec users seen items :
  (∀ r, r ∈ unique_from users seen items →
     r ∈ items ∧ list_key users r ∉ seen) ∧
  NoDup (list_key users <$> unique_from users seen items) ∧
  unique_from users seen items `sublist_of` items.
Proof.
  revert seen. induction items as [|r0 items IH]; intros seen; simpl.
  - split; [by intros r ?%elem_of_nil|]. split; [constructor | done].
  - case_bool_decide as Hseen.
    + destruct (IH seen) as (Hin & Hnd & Hsub). split; [|split].
      * intros r Hr. destruct (Hin r Hr). split; [by right | done].
      * done.
      * by apply sublist_cons.
    + destruct (IH (list_key users r0 :: seen)) as (Hin & Hnd & Hsub).
      split; [|split].
      * intros r [->|Hr]%elem_of_cons; [split; [by left | done]|].
        destruct (Hin r Hr) as [? Hk]. split; [by right|].
        intros ?. apply Hk. by right.
      * rewrite fmap_cons. apply list.NoDup_cons. split; [|done].
        intros (r & Hk & Hr)%list_elem_of_fmap.
        destruct (Hin r Hr) as [_ Hnk]. apply Hnk. rewrite Hk. by left.
      * by apply sublist_skip.
Qed.

(** An item is kept when its key is new at its place in the list. *)
Lemma unique_from_first users seen pre r post :
  list_key users r ∉ seen →
  (∀ r0, r0 ∈ pre → list_key users r0 ≠ list_key users r) →
  r ∈ unique_from users seen (pre ++ r :: post).
Proof.
  revert seen. induction pre as [|r0 pre IH]; intros seen Hseen Hpre; simpl.
  - rewrite bool_decide_eq_false_2 by done. by left.
  - case_bool_decide.
    + apply IH; [done|]. intros r1 Hr1. apply Hpre. by right.
    + right. apply IH.
      * intros [Heq|?]%elem_of_cons; [|done].
        apply (Hpre r0); [by left | done].
      * intros r1 Hr1. apply Hpre. by right.
Qed.

Lemma sublist_List_filter {A} (f : A → bool) (l : list A) :
  List.filter f l `sublist_of` l.
Proof.
  induction l as [|x l IH]; simpl; [done|].
  destruct (f x); [by apply sublist_skip | by apply sublist_cons].
Qed.

Lemma filter_status_query status_param items r :
  r ∈ List.filter (status_query status_param) items ↔
  r ∈ items ∧ status_query status_param r = true.
Proof. rewrite !list_elem_of_In. apply filter_In. Qed.

(** X25.  The listing shows, for every key of user, plan and status, the
    first request of the query result with that key and no other: the
    listed requests are a subsequence of the collection as sorted, each
    passes the status query, no two have the same key, and a request
    that passes the query is listed if no request before it in the query
    result has its key. *)
Theorem list_requests_first_of_key status_param users newest_first :
  let listed := list_requests status_param users newest_first in
  listed `sublist_of` newest_first ∧
  (∀ r, r ∈ listed → status_query status_param r = true) ∧
  NoDup (list_key users <$> listed) ∧
  (∀ pre r post,
     List.filter (status_query status_param) newest_first = pre ++ r :: post →
     (∀ r0, r0 ∈ pre → list_key users r0 ≠ list_key users r) →
     r ∈ listed).
Proof.
  unfold list_requests.
  destruct (unique_from_spec users []
              (List.filter (status_query status_param) newest_first))
    as (Hin & Hnd & Hsub).
  split; [|split; [|split]].
  - etrans; [done|]. apply sublist_List_filter.
  - intros r Hr. destruct (Hin r Hr) as [Hf _].
    by apply filter_status_query in Hf as [_ ?].
  - done.
  - intros pre r post -> Hpre. apply unique_from_first; [|done].
    apply not_elem_of_nil.
Qed.

Lemma unique_from_NoDup users seen items :
  NoDup (list_key users <$> items) →
  (∀ r, r ∈ items → list_key users r ∉ seen) →
  unique_from users seen items = items.
Proof.
  revert seen. induction items as [|r items IH]; intros seen Hnd Hseen;
    simpl; [done|].
  rewrite fmap_cons in Hnd. apply list.NoDup_cons in Hnd as [Hr Hnd].
  rewrite bool_decide_eq_false_2 by (apply Hseen; by left).
  f_equal. apply IH; [done|].
  intros r0 Hr0 [Heq|?]%elem_of_cons.
  - apply Hr. rewrite <- Heq. apply list_elem_of_fmap. by exists r0.
  - apply (Hseen r0); [by right | done].
Qed.

Lemma filter_pending_cons r items :
  List.filter (status_query "pending") (r :: items)
  = if bool_decide (status r = pending)
    then r :: List.filter (status_query "pending") items
    else List.filter (status_query "pending") items.
Proof. done. Qed.

(** X26.  On a collection with at most one pending request per user and
    plan, all of whose users are stored, the listing of the pending
    requests leaves nothing out: it is the list of the pending requests,
    newest first. *)
Theorem list_requests_pending_all users newest_first :
  one_pending newest_first →
  (∀ r, r ∈ newest_first → is_Some (users !! user r)) →
  list_requests "pending" users newest_first
  = List.filter (status_query "pending") newest_first.
Proof.
  intros Hone Husers. unfold list_requests.
  apply unique_from_NoDup; [|intros; apply not_elem_of_nil].
  induction newest_first as [|r items IH]; [constructor|].
  assert (one_pending items) as Hone'.
  { intros userId p. specialize (Hone userId p).
    destruct (decide (pending_for userId p r = true)).
    - rewrite filter_cons_True in Hone by done. simpl in Hone. lia.
    - by rewrite filter_cons_False in Hone. }
  assert (∀ r0, r0 ∈ items → is_Some (users !! user r0)) as Husers'.
  { intros r0 Hr0. apply Husers. by right. }
  rewrite filter_pending_cons. case_bool_decide as Hst; [|by apply IH].
  rewrite fmap_cons. apply list.NoDup_cons. split; [|by apply IH].
  intros (r0 & Hk & Hr0)%list_elem_of_fmap.
  apply filter_status_query in Hr0 as [Hr0 Hq].
  unfold status_query in Hq. simpl in Hq. apply bool_decide_eq_true in Hq.
  unfold list_key in Hk.
  destruct (Husers r ltac:(by left)) as [u Hu].
  destruct (Husers r0 ltac:(by right)) as [u0 Hu0]. rewrite Hu, Hu0 in Hk.
  injection Hk as Huser Hplan _.
  assert (pending_for (user r) (plan r) r = true) as Hp.
  { unfold pending_for. by rewrite !bool_decide_eq_true_2. }
  assert (pending_for (user r) (plan r) r0 = true) as Hp0.
  { unfold pending_for. by rewrite !bool_decide_eq_true_2. }
  specialize (Hone (user r) (plan r)).
  rewrite filter_cons_True in Hone by done.
  assert (r0 ∈ filter (λ r1, pending_for (user r) (plan r) r1 = true) items)
    as Hin by by apply list_elem_of_filter.
  destruct (filter _ items); [by apply elem_of_nil in Hin|].
  simpl in Hone. lia.
Qed.

Lemma NoDup_fmap_eq {A B} (f : A → B) (l : list A) x y :
  NoDup (f <$> l) → x ∈ l → y ∈ l → f x = f y → x = y.
Proof.
  induction l as [|z l IH]; [by intros _ ?%elem_of_nil|].
  rewrite fmap_cons. intros [Hz Hnd]%list.NoDup_cons.
  intros [->|Hx]%elem_of_cons [->|Hy]%elem_of_cons Hf; try done.
  - exfalso. apply Hz. rewrite Hf. apply list_elem_of_fmap. by exists y.
  - exfalso. apply Hz. rewrite <- Hf. apply list_elem_of_fmap. by exists x.
  - by apply IH.
Qed.

(** X27.  Requests whose user is no longer stored share one key per plan
    and status, whoever the user was: of all such requests for one plan
    and one status, the listing shows at most one. *)
Theorem list_requests_missing_users status_param users newest_first r1 r2 :
  let listed := list_requests status_param users newest_first in
  r1 ∈ listed → r2 ∈ listed →
  users !! user r1 = None → users !! user r2 = None →
  plan r1 = plan r2 → status r1 = status r2 →
  r1 = r2.
Proof.
  intros listed H1 H2 Hu1 Hu2 Hp Hs.
  apply (NoDup_fmap_eq (list_key users) listed); try done.
  - unfold listed, list_requests. apply unique_from_spec.
  - unfold list_key. by rewrite Hu1, Hu2, Hp, Hs.
Qed.

End queue_facts.

(** ** Favorites and reading list *)

Section shelf_facts.

Local Open Scope Z_scope.

Implicit Types (shelves : Shelves) (shelf : Shelf) (users : Users).
Implicit Types (userId bookId other : ObjectId) (arr : list ObjectId).

Lemma elem_of_addToSet bookId arr other :
  other ∈ addToSet bookId arr ↔ other ∈ arr ∨ other = bookId.
Proof.
  unfold addToSet. case_bool_decide as Hin.
  - split; [by left|]. intros [?| ->]; done.
  - rewrite elem_of_app, list_elem_of_singleton. done.
Qed.

Lemma elem_of_pull bookId arr other :
  other ∈ pull bookId arr ↔ other ∈ arr ∧ other ≠ bookId.
Proof. unfold pull. rewrite list_elem_of_filter. tauto. Qed.

Lemma addToSet_NoDup bookId arr : NoDup arr → NoDup (addToSet bookId arr).
Proof.
  intros Hnd. unfold addToSet. case_bool_decide as Hin; [done|].
  apply list.NoDup_app. split; [done|]. split; [|apply NoDup_singleton].
  intros x Hx ->%list_elem_of_singleton. done.
Qed.

Lemma addToSet_present bookId arr : bookId ∈ arr → addToSet bookId arr = arr.
Proof. intros Hin. unfold addToSet. by rewrite bool_decide_eq_true_2. Qed.

Lemma exists_printed (h : HexId) arr :
  existsb (λ id, bool_decide (id = oid h) && printed h) arr
  = bool_decide (oid h ∈ arr) && printed h.
Proof.
  induction arr as [|x arr IH]; cbn [existsb].
  - by rewrite bool_decide_eq_false_2 by apply not_elem_of_nil.
  - rewrite IH. destruct (decide (x = oid h)) as [->|Hne].
    + rewrite (bool_decide_eq_true_2 (oid h = oid h)) by done.
      rewrite (bool_decide_eq_true_2 (oid h ∈ oid h :: arr)) by by left.
      by destruct (printed h), (bool_decide (oid h ∈ arr)).
    + rewrite (bool_decide_eq_false_2 (x = oid h)) by done. simpl.
      destruct (decide (oid h ∈ arr)) as [Hin|Hin].
      * rewrite (bool_decide_eq_true_2 (oid h ∈ arr)) by done.
        by rewrite (bool_decide_eq_true_2 (oid h ∈ x :: arr)) by by right.
      * rewrite (bool_decide_eq_false_2 (oid h ∈ arr)) by done.
        rewrite (bool_decide_eq_false_2 (oid h ∈ x :: arr)); [done|].
        intros [?|?]%elem_of_cons; [congruence|done].
Qed.

(** X28.  With a book id written as the server prints ids, the toggle
    flips the book: afterwards the book is a favorite exactly if it was
    not one before, the reply tells which, every other book stays as it
    was and so does the reading list. *)
Theorem favorites_toggle_flips userId (h : HexId) shelves shelf :
  shelves !! userId = Some shelf → printed h = true →
  ∃ shelf',
    (favorites_toggle userId (Some h) shelves).2 !! userId = Some shelf' ∧
    (favorites_toggle userId (Some h) shelves).1
    = Toggled (bool_decide (oid h ∈ favorites shelf')) ∧
    (oid h ∈ favorites shelf' ↔ oid h ∉ favorites shelf) ∧
    (∀ other, other ≠ oid h →
       other ∈ favorites shelf' ↔ other ∈ favorites shelf) ∧
    reading_list shelf' = reading_list shelf.
Proof.
  intros Hs Hp. unfold favorites_toggle. rewrite Hs, exists_printed, Hp.
  rewrite andb_true_r.
  destruct (decide (oid h ∈ favorites shelf)) as [Hin|Hin].
  - rewrite (bool_decide_eq_true_2 _ Hin). simpl.
    exists (mkShelf (reading_list shelf) (pull (oid h) (favorites shelf))).
    rewrite lookup_alter_eq, Hs. simpl. split; [done|].
    assert (oid h ∉ pull (oid h) (favorites shelf)) as Hout.
    { rewrite elem_of_pull. tauto. }
    split; [by rewrite bool_decide_eq_false_2|].
    split; [tauto|]. split; [|done].
    intros other Hne. rewrite elem_of_pull. tauto.
  - rewrite (bool_decide_eq_false_2 _ Hin). simpl.
    exists (mkShelf (reading_list shelf)
              (addToSet (oid h) (favorites shelf))).
    rewrite lookup_alter_eq, Hs. simpl. split; [done|].
    assert (oid h ∈ addToSet (oid h) (favorites shelf)) as Hnow.
    { rewrite elem_of_addToSet. by right. }
    split; [by rewrite bool_decide_eq_true_2|].
    split; [tauto|]. split; [|done].
    intros other Hne. rewrite elem_of_addToSet. tauto.
Qed.

(** X29.  With a book id that denotes a favorite but is not written as
    the server prints it (upper-case hex digits), the toggle does not
    find the book: it answers that the book is now a favorite and leaves
    the favorites as they were, so the book cannot be removed that
    way. *)
Theorem favorites_toggle_other_case userId (h : HexId) shelves shelf :
  shelves !! userId = Some shelf → printed h = false →
  oid h ∈ favorites shelf →
  favorites_toggle userId (Some h) shelves = (Toggled true, shelves).
Proof.
  intros Hs Hp Hin. unfold favorites_toggle.
  rewrite Hs, exists_printed, Hp, andb_false_r. f_equal.
  apply map_eq. intros i. destruct (decide (i = userId)) as [->|Hne].
  - rewrite lookup_alter_eq, Hs. simpl.
    rewrite addToSet_present by done. by destruct shelf.
  - by rewrite lookup_alter_ne.
Qed.

(** X30.  For a user with an active subscription, adding a book to the
    reading list puts it there without repeating it, adding it again
    changes nothing, and removing it afterwards leaves a reading list
    without the book; the favorites are untouched throughout. *)
Theorem reading_list_add_remove now userId bookId users shelves shelf :
  shelves !! userId = Some shelf →
  ensureActiveSubscription now userId users = Ok →
  let shelves1 :=
    (reading_list_add now userId (Some bookId) users shelves).2 in
  (∃ shelf1, shelves1 !! userId = Some shelf1 ∧
     (bookId ∈ reading_list shelf1) ∧
     (NoDup (reading_list shelf) → NoDup (reading_list shelf1)) ∧
     favorites shelf1 = favorites shelf) ∧
  reading_list_add now userId (Some bookId) users shelves1
  = (ListOk, shelves1) ∧
  (∃ shelf2,
     (reading_list_remove userId (Some bookId) shelves1).2 !! userId
     = Some shelf2 ∧
     (bookId ∉ reading_list shelf2) ∧
     favorites shelf2 = favorites shelf).
Proof.
  intros Hs Hgate. unfold reading_list_add, reading_list_remove.
  rewrite Hgate. simpl. split; [|split].
  - exists (mkShelf (addToSet bookId (reading_list shelf)) (favorites shelf)).
    rewrite lookup_alter_eq, Hs. simpl. split; [done|].
    split; [rewrite elem_of_addToSet; by right|].
    split; [apply addToSet_NoDup | done].
  - f_equal. apply map_eq. intros i.
    destruct (decide (i = userId)) as [->|Hne].
    + rewrite !lookup_alter_eq, Hs. simpl.
      rewrite (addToSet_present bookId (addToSet _ _)); [done|].
      rewrite elem_of_addToSet. by right.
    + by rewrite !lookup_alter_ne.
  - exists (mkShelf (pull bookId (addToSet bookId (reading_list shelf)))
              (favorites shelf)).
    rewrite !lookup_alter_eq, Hs. simpl. split; [done|].
    split; [|done]. rewrite elem_of_pull. tauto.
Qed.

End shelf_facts.

(** ** The further properties at the small library *)

Section examples.

Local Open Scope Z_scope.

Lemma library_within_quota : active_within_quota library.
Proof.
  intros userId user Hl _. unfold library in Hl.
  apply lookup_singleton_Some in Hl as [<- <-]. simpl. lia.
Qed.

(** User 7 reads book 6 at time 10. *)
Lemma gate_keeps_subscription_witness :
  ∃ user',
    (ensureActiveAndWithinLimits 10 10 7%N 6%N "read" library).2 !! 7%N
    = Some user' ∧
    subscription_plan user' = basic ∧ subscription_end user' = Some 1000.
Proof.
  eexists. split; [reflexivity|].
  pose proof (gate_keeps_subscription 10 10 7%N 6%N "read" library reader _
                eq_refl eq_refl) as (Hplan & _ & _ & Hend).
  split; [exact Hplan | exact Hend].
Defined.

(** User 7 reads book 2 again at time 10. *)
Lemma gate_keeps_NoDup_witness :
  ∃ user',
    (ensureActiveAndWithinLimits 10 10 7%N 2%N "read" library).2 !! 7%N
    = Some user' ∧
    NoDup (read_books_in_period user').
Proof.
  eexists. split; [reflexivity|].
  assert (NoDup (read_books_in_period reader)) as Hr.
  { apply (bool_decide_unpack _). vm_compute. exact I. }
  assert (NoDup (downloaded_books_in_period reader)) as Hd.
  { apply (bool_decide_unpack _). vm_compute. exact I. }
  exact (proj1 (gate_keeps_NoDup 10 10 7%N 2%N "read" library reader _
                  eq_refl Hr Hd eq_refl)).
Defined.

Lemma gate_Ok_records_witness :
  ∃ user',
    (ensureActiveAndWithinLimits 10 10 7%N 6%N "download" library).2 !! 7%N
    = Some user' ∧
    6%N ∈ downloaded_books_in_period user'.
Proof.
  apply (gate_Ok_records 10 10 7%N 6%N Download library
           (ensureActiveAndWithinLimits 10 10 7%N 6%N "download" library).2).
  reflexivity.
Defined.

Lemma gate_Ok_again_witness :
  let users' :=
    (ensureActiveAndWithinLimits 10 10 7%N 6%N "read" library).2 in
  ensureActiveAndWithinLimits 10 10 7%N 6%N "read" users' = (Ok, users').
Proof.
  intros users'.
  apply (gate_Ok_again 10 10 7%N 6%N "read" library users'). reflexivity.
Defined.

Lemma gate_other_type_witness :
  ensureActiveAndWithinLimits 10 10 7%N 6%N "preview" library
  = (Ok, <[7%N := reader]> library).
Proof.
  apply (gate_other_type 10 10 7%N 6%N "preview" library reader 1000);
    try done.
Defined.

Lemma gate_keeps_quota_witness :
  active_within_quota
    (ensureActiveAndWithinLimits 10 10 7%N 6%N "read" library).2.
Proof.
  apply (gate_keeps_quota 10 10 7%N 6%N "read" library).
  apply library_within_quota.
Defined.

(** User 8, a basic subscriber who has read nothing yet, reads ten
    books. *)
Lemma quota_boundary_witness :
  let user8 := mkUser basic active (Some 0) (Some 1000) (Some 0) [] [3%N] in
  let users8 : Users := {[8%N := user8]} in
  let ids := [11; 12; 13; 14; 15; 16; 17; 18; 19; 20]%N in
  (requests 8%N "read" (zip ids (replicate 10 (10, 10))) users8).1
  = replicate 10 Ok.
Proof.
  intros user8 users8 ids.
  assert (subscriber basic 1000 0 user8) as Hsub by repeat split.
  assert (NoDup ids) as Hnd.
  { apply (bool_decide_unpack _). vm_compute. exact I. }
  assert (Forall (in_force 1000 0) (replicate 10 (10, 10))) as Hclock.
  { repeat constructor; unfold thirty_days; simpl; lia. }
  assert (basic ≠ plan_none) as Hplan by discriminate.
  pose proof (quota_boundary Read basic users8 8%N user8 1000 0 ids
                (replicate 10 (10, 10)) Hplan eq_refl Hsub eq_refl Hnd
                eq_refl eq_refl Hclock) as [Hten _].
  exact (f_equal fst Hten).
Defined.

Lemma grant_paths_agree_witness :
  (approve 10 11 1%N (library, [upgrade])).2.1
  = (grant_subscription 10 7%N "premium" library).2.
Proof.
  assert (is_Some (library !! user upgrade)) as Hu by by eexists.
  exact (proj1 (grant_paths_agree 10 11 library [upgrade] 1%N upgrade
                  "premium" eq_refl eq_refl eq_refl Hu)).
Defined.

Lemma grant_then_access_witness :
  let users1 := (grant_subscription 10 7%N "premium" library).2 in
  ∃ user', ensureActiveAndWithinLimits 20 20 7%N 6%N "read" users1
           = (Ok, <[7%N := user']> users1) ∧
           read_books_in_period user' = [6%N].
Proof.
  assert (is_Some (library !! 7%N)) as Hu by by eexists.
  assert (20 ≤ 10 + thirty_days) as H1 by (unfold thirty_days; lia).
  assert (20 - 10 ≤ thirty_days) as H2 by (unfold thirty_days; lia).
  exact (grant_then_access Read 10 7%N "premium" premium library 6%N (20, 20)
           eq_refl Hu H1 H2).
Defined.

Lemma approve_then_access_witness :
  let users1 := (approve 10 11 1%N (library, [upgrade])).2.1 in
  ∃ user', ensureActiveAndWithinLimits 20 20 7%N 6%N "download" users1
           = (Ok, <[7%N := user']> users1) ∧
           downloaded_books_in_period user' = [6%N].
Proof.
  assert (is_Some (library !! user upgrade)) as Hu by by eexists.
  assert (plan upgrade ≠ plan_none) as Hp by discriminate.
  assert (20 ≤ 10 + thirty_days) as H1 by (unfold thirty_days; lia).
  assert (20 - 10 ≤ thirty_days) as H2 by (unfold thirty_days; lia).
  exact (approve_then_access Download 10 11 library [upgrade] 1%N upgrade 6%N
           (20, 20) eq_refl eq_refl Hp Hu H1 H2).
Defined.

Lemma cancel_then_refused_witness :
  let users1 := (cancel_subscription 10 7%N library).2 in
  ensureActiveAndWithinLimits 10 10 7%N 1%N "read" users1
  = (SubscriptionInactive, users1).
Proof.
  exact (proj1 (cancel_then_refused 10 7%N library reader 10 10 1%N "read"
                  eq_refl)).
Defined.

Lemma bulk_pointwise_witness :
  (bulk_subscription 10 [7; 9]%N "cancel" "basic" library).1 = BulkOk 2 ∧
  (bulk_subscription 10 [7; 9]%N "cancel" "basic" library).2 !! 7%N
  = (cancel_subscription 10 7%N library).2 !! 7%N.
Proof.
  assert ([7; 9]%N ≠ []) as Hids by discriminate.
  pose proof (bulk_pointwise 10 [7; 9]%N "basic" basic library 7%N Hids
                eq_refl) as (Hcount & _ & Hcancel & _).
  split; [exact Hcount | exact Hcancel].
Defined.

Lemma expire_job_gate_witness :
  (ensureActiveAndWithinLimits 2000 2000 7%N 1%N "read"
     (expire_job 1500 library)).1
  = SubscriptionInactive.
Proof.
  assert (1500 ≤ 2000) as Ht by lia.
  rewrite (expire_job_gate 1500 2000 2000 7%N 1%N "read" library Ht).
  reflexivity.
Defined.


Lemma mark_processed_final_witness :
  let reqs1 := (mark_processed 10 1%N [upgrade]).2 in
  approve 20 21 1%N (library, reqs1) = (AlreadyProcessed, (library, reqs1)).
Proof.
  pose proof (mark_processed_final 10 20 21 1%N library [upgrade] upgrade
                eq_refl) as (_ & Happrove & _).
  exact Happrove.
Defined.

Lemma upgrade_one_pending : one_pending [upgrade].
Proof.
  intros userId p.
  destruct (decide (pending_for userId p upgrade = true)).
  - rewrite filter_cons_True by done. simpl. lia.
  - rewrite filter_cons_False by done. simpl. lia.
Qed.

Lemma approve_then_subscribe_witness :
  let reqs1 := (approve 10 11 1%N (library, [upgrade])).2.2 in
  subscribe_request 3%N 7%N "premium" (Some "  once again ") reqs1
  = (Created 3%N,
     reqs1 ++ [mkRequest 3%N 7%N premium pending None "once again"]).
Proof.
  assert (is_Some (library !! user upgrade)) as Hu by by eexists.
  exact (approve_then_subscribe 10 11 1%N 3%N library [upgrade] upgrade
           "premium" (Some "  once again ") upgrade_one_pending eq_refl
           eq_refl Hu eq_refl).
Defined.

Lemma queue_one_pending : one_pending queue.
Proof.
  intros userId p. unfold queue.
  destruct (decide (userId = 7%N)) as [->|H7];
    [|destruct (decide (userId = 8%N)) as [->|H8]].
  - destruct p; vm_compute; lia.
  - destruct p; vm_compute; lia.
  - assert (∀ r, user r = 7%N ∨ user r = 8%N →
              ¬ pending_for userId p r = true) as Hother.
    { intros r Hr. unfold pending_for.
      rewrite (bool_decide_eq_false_2 (user r = userId)); [done|].
      destruct Hr as [-> | ->]; congruence. }
    rewrite !filter_cons_False by (apply Hother; simpl; tauto).
    simpl. lia.
Qed.

(** Users 7 and 8 each have a pending request for the premium plan, and
    user 7 has a processed one: both pending requests are listed. *)
Lemma list_requests_pending_all_witness :
  list_requests "pending" library2 queue = [upgrade8; upgrade].
Proof.
  apply (list_requests_pending_all library2 queue queue_one_pending).
  intros r Hr. unfold queue in Hr.
  apply elem_of_cons in Hr as [->|Hr]; [by eexists|].
  apply elem_of_cons in Hr as [->|Hr]; [by eexists|].
  apply list_elem_of_singleton in Hr as ->. by eexists.
Defined.

(** Two requests of users that are not stored, for the same plan. *)
Lemma list_requests_missing_users_witness :
  let orphan' := mkRequest 3%N 10%N basic pending None "hi" in
  orphan' ∉ list_requests "pending" library [orphan; orphan'].
Proof.
  intros orphan' Hin.
  assert (orphan ∈ list_requests "pending" library [orphan; orphan']) as H0.
  { vm_compute. apply list_elem_of_In. simpl. tauto. }
  pose proof (list_requests_missing_users "pending" library
                [orphan; orphan'] orphan orphan' H0 Hin eq_refl eq_refl
                eq_refl eq_refl) as Heq.
  discriminate Heq.
Defined.

Lemma favorites_toggle_flips_witness :
  (favorites_toggle 7%N (Some (mkHexId 5%N true)) shelves7).1
  = Toggled false.
Proof.
  destruct (favorites_toggle_flips 7%N (mkHexId 5%N true) shelves7
              shelf7 eq_refl eq_refl)
    as (shelf' & Hl & Hreply & Hflip & _).
  rewrite Hreply. f_equal. apply bool_decide_eq_false_2.
  intros Hnow%Hflip. apply Hnow. simpl.
  apply list_elem_of_singleton. reflexivity.
Defined.

Lemma favorites_toggle_other_case_witness :
  favorites_toggle 7%N (Some (mkHexId 5%N false)) shelves7
  = (Toggled true, shelves7).
Proof.
  apply (favorites_toggle_other_case 7%N (mkHexId 5%N false)
           shelves7 shelf7 eq_refl eq_refl).
  simpl. apply list_elem_of_singleton. reflexivity.
Defined.

Lemma reading_list_add_remove_witness :
  let shelves1 :=
    (reading_list_add 10 7%N (Some 6%N) library shelves7).2 in
  reading_list_add 10 7%N (Some 6%N) library shelves1 = (ListOk, shelves1).
Proof.
  pose proof (reading_list_add_remove 10 7%N 6%N library shelves7
                shelf7 eq_refl eq_refl) as (_ & Hagain & _).
  exact Hagain.
Defined.

End examples.
